(** * UrbanFarmTwinFHE: the decryption-request correlator and its callbacks

    A shallow embedding of [contracts/UrbanFarmTwinFHE.sol].  Every public
    function of the contract is a function from the storage before the call
    to either the storage after it together with the events it emitted, or
    a revert.  A reverted call leaves nothing behind, which is how the EVM
    treats it.

    The FHE library ([@fhevm/solidity]) and the Solidity built-ins
    [keccak256] and [abi.decode] are not part of the contract: they are the
    fields of the class [External] below.  Gas is not modelled.  The
    modifier [onlyOwnerOfTwin] has an empty body and is left out. *)

From Stdlib Require Import ZArith Lia String Ascii List.
From stdpp Require Import base decidable option list strings functions.

Local Open Scope string_scope.
Local Open Scope list_scope.
Local Open Scope Z_scope.

(** ** Machine integers

    Solidity 0.8 arithmetic is checked: an operation whose result leaves
    the range of its type reverts with [Panic(0x11)]. *)

Definition MAX_UINT32 : Z := 2 ^ 32 - 1.
Definition MAX_UINT256 : Z := 2 ^ 256 - 1.

Definition uint256 := Z.
Definition uint32 := Z.
Definition bytes32 := Z.
Definition bytes := list Z.

(** [euint32] is a user-defined value type over a 32-byte word: a handle.
    The slot of a mapping that was never written reads as the zero handle. *)
Definition euint32 := Z.

(** ** Reverts

    [Error] is Solidity's [Error(string)], raised by a failed [require] and by
    [revert(msg)]; [InvalidSignatures] is the library's rejection of a proof;
    [RequestRejected] is the library's revert inside [FHE.requestDecryption],
    as when its access-control list does not allow a handle of the request
    to be decrypted for the contract; [Panic 0x11] is an arithmetic overflow
    and [Panic 0x32] an array index out of bounds. *)

Inductive RevertReason : Type :=
| Error (msg : string)
| InvalidSignatures
| RequestRejected
| AbiDecodeFailed
| Panic (code : Z).

Inductive Result (A : Type) : Type :=
| Ok (a : A)
| Revert (r : RevertReason).

Arguments Ok {A} a.
Arguments Revert {A} r.

Global Instance Result_ret : MRet Result := fun _ a => Ok a.
Global Instance Result_bind : MBind Result := fun _ _ f m =>
  match m with
  | Ok a => f a
  | Revert r => Revert r
  end.

Definition require (cond : bool) (msg : string) : Result unit :=
  if cond then Ok tt else Revert (Error msg).

Definition ARITHMETIC_OVERFLOW : Z := 17.

Definition checked (bound : Z) (v : Z) : Result Z :=
  if (0 <=? v) && (v <=? bound) then Ok v else Revert (Panic ARITHMETIC_OVERFLOW).

Definition add256 (a b : uint256) : Result uint256 := checked MAX_UINT256 (a + b).
Definition mul256 (a b : uint256) : Result uint256 := checked MAX_UINT256 (a * b).
Definition add32 (a b : uint32) : Result uint32 := checked MAX_UINT32 (a + b).
Definition mul32 (a b : uint32) : Result uint32 := checked MAX_UINT32 (a * b).

(** ** Structs *)

Module EncryptedReading.
Record t : Type := mk {
  id : uint256;
  encryptedTimestamp : euint32;
  encryptedTemperature : euint32;
  encryptedHumidity : euint32;
  encryptedCO2 : euint32;
  encryptedLight : euint32;
  encryptedSoilMoisture : euint32
}.
Definition zero : t := mk 0 0 0 0 0 0 0.
End EncryptedReading.

Module EncryptedTwin.
Record t : Type := mk {
  id : uint256;
  encryptedStateHash : euint32;
  encryptedHealthScore : euint32;
  lastUpdated : uint256
}.
Definition zero : t := mk 0 0 0 0.
End EncryptedTwin.

Module DecryptedTwin.
Record t : Type := mk {
  stateSummary : string;
  healthScore : uint32;
  revealed : bool
}.
Definition zero : t := mk "" 0 false.
End DecryptedTwin.

Module EncryptedRecommendation.
Record t : Type := mk {
  id : uint256;
  encryptedWateringSchedule : euint32;
  encryptedNutrientPlan : euint32;
  encryptedLightAdjust : euint32;
  generatedAt : uint256
}.
Definition zero : t := mk 0 0 0 0 0.
End EncryptedRecommendation.

Module DecryptedRecommendation.
Record t : Type := mk {
  watering : string;
  nutrients : string;
  lightAdjust : string;
  revealed : bool
}.
Definition zero : t := mk "" "" "" false.
End DecryptedRecommendation.

(** ** Events *)

Inductive Event : Type :=
| ReadingSubmitted (id timestamp : uint256)
| TwinUpdateRequested (twinId requestId : uint256)
| TwinDecrypted (twinId : uint256)
| RecommendationRequested (recId requestId : uint256)
| RecommendationDecrypted (recId : uint256)
| PlainAggregateResult (key : string) (value : uint32).

(** The callback a decryption request names ([this.f.selector]). *)
Inductive Selector : Type :=
| decryptTwinUpdate_selector
| decryptRecommendation_selector
| decryptAggregate_selector.

(** ** What the contract imports

    [fhe_state] is the library's own record of the decryption requests it
    has issued: [FHE.requestDecryption] extends it and hands back the new
    request id, or reverts when the library refuses the request ([None]
    here); [FHE.checkSignatures] consults it and reverts when the
    proof does not attest the cleartexts ([false] here).  [keccak256] is
    applied to [abi.encodePacked(s)], the bytes of [s].  [abi.decode]
    reverts on a payload that is not an encoding of the requested type
    ([None] here). *)

Class External : Type := {
  fhe_state : Type;
  FHE_toBytes32 : euint32 -> bytes32;
  FHE_asEuint32 : uint32 -> euint32;
  FHE_add : euint32 -> euint32 -> euint32;
  FHE_isInitialized : euint32 -> bool;
  FHE_requestDecryption :
    fhe_state -> list bytes32 -> Selector -> option (uint256 * fhe_state);
  FHE_checkSignatures : fhe_state -> uint256 -> bytes -> bytes -> bool;
  keccak256 : string -> bytes32;
  abi_decode_strings : bytes -> option (list string);
  abi_decode_uint32 : bytes -> option uint32
}.

(** ** Utility functions of the contract *)

Definition byte_value (c : ascii) : Z := Z.of_N (N_of_ascii c).

(** The loop of [parseUint32]: [result] is the accumulator, the string is
    what is left of [b] from index [i] on.  A byte outside ['0'..'9'] is the
    [break]. *)
Fixpoint parseUint32_from (b : string) (result : uint32) : Result uint32 :=
  match b with
  | EmptyString => Ok result
  | String ch rest =>
      let c := byte_value ch in
      if (48 <=? c) && (c <=? 57) then
        r10 ← mul32 result 10;
        r ← add32 r10 (c - 48);
        parseUint32_from rest r
      else Ok result
  end.

Definition parseUint32 (s : string) : Result uint32 := parseUint32_from s 0.

(** ** Storage *)

Section Contract.
Context `{E : External}.

Record State : Type := mkState {
  readingCount : uint256;
  twinCount : uint256;
  recommendationCount : uint256;
  readings : uint256 -> EncryptedReading.t;
  encryptedTwins : uint256 -> EncryptedTwin.t;
  decryptedTwins : uint256 -> DecryptedTwin.t;
  encryptedRecommendations : uint256 -> EncryptedRecommendation.t;
  decryptedRecommendations : uint256 -> DecryptedRecommendation.t;
  encryptedMetricAggregates : string -> euint32;
  metricKeys : list string;
  requestToEntityId : uint256 -> uint256;
  requestToTag : uint256 -> bytes32;
  fhe : fhe_state
}.

(** The storage of a freshly deployed contract: every slot is zero. *)
Definition initial (f : fhe_state) : State :=
  {| readingCount := 0;
     twinCount := 0;
     recommendationCount := 0;
     readings := fun _ => EncryptedReading.zero;
     encryptedTwins := fun _ => EncryptedTwin.zero;
     decryptedTwins := fun _ => DecryptedTwin.zero;
     encryptedRecommendations := fun _ => EncryptedRecommendation.zero;
     decryptedRecommendations := fun _ => DecryptedRecommendation.zero;
     encryptedMetricAggregates := fun _ => 0;
     metricKeys := [];
     requestToEntityId := fun _ => 0;
     requestToTag := fun _ => 0;
     fhe := f |}.

Definition set_readingCount (v : uint256) (st : State) : State :=
  mkState v (twinCount st) (recommendationCount st) (readings st)
    (encryptedTwins st) (decryptedTwins st) (encryptedRecommendations st)
    (decryptedRecommendations st) (encryptedMetricAggregates st) (metricKeys st)
    (requestToEntityId st) (requestToTag st) (fhe st).

Definition set_twinCount (v : uint256) (st : State) : State :=
  mkState (readingCount st) v (recommendationCount st) (readings st)
    (encryptedTwins st) (decryptedTwins st) (encryptedRecommendations st)
    (decryptedRecommendations st) (encryptedMetricAggregates st) (metricKeys st)
    (requestToEntityId st) (requestToTag st) (fhe st).

Definition set_recommendationCount (v : uint256) (st : State) : State :=
  mkState (readingCount st) (twinCount st) v (readings st)
    (encryptedTwins st) (decryptedTwins st) (encryptedRecommendations st)
    (decryptedRecommendations st) (encryptedMetricAggregates st) (metricKeys st)
    (requestToEntityId st) (requestToTag st) (fhe st).

Definition set_readings (v : uint256 -> EncryptedReading.t) (st : State) : State :=
  mkState (readingCount st) (twinCount st) (recommendationCount st) v
    (encryptedTwins st) (decryptedTwins st) (encryptedRecommendations st)
    (decryptedRecommendations st) (encryptedMetricAggregates st) (metricKeys st)
    (requestToEntityId st) (requestToTag st) (fhe st).

Definition set_encryptedTwins (v : uint256 -> EncryptedTwin.t) (st : State) : State :=
  mkState (readingCount st) (twinCount st) (recommendationCount st) (readings st)
    v (decryptedTwins st) (encryptedRecommendations st)
    (decryptedRecommendations st) (encryptedMetricAggregates st) (metricKeys st)
    (requestToEntityId st) (requestToTag st) (fhe st).

Definition set_decryptedTwins (v : uint256 -> DecryptedTwin.t) (st : State) : State :=
  mkState (readingCount st) (twinCount st) (recommendationCount st) (readings st)
    (encryptedTwins st) v (encryptedRecommendations st)
    (decryptedRecommendations st) (encryptedMetricAggregates st) (metricKeys st)
    (requestToEntityId st) (requestToTag st) (fhe st).

Definition set_encryptedRecommendations
    (v : uint256 -> EncryptedRecommendation.t) (st : State) : State :=
  mkState (readingCount st) (twinCount st) (recommendationCount st) (readings st)
    (encryptedTwins st) (decryptedTwins st) v
    (decryptedRecommendations st) (encryptedMetricAggregates st) (metricKeys st)
    (requestToEntityId st) (requestToTag st) (fhe st).

Definition set_decryptedRecommendations
    (v : uint256 -> DecryptedRecommendation.t) (st : State) : State :=
  mkState (readingCount st) (twinCount st) (recommendationCount st) (readings st)
    (encryptedTwins st) (decryptedTwins st) (encryptedRecommendations st)
    v (encryptedMetricAggregates st) (metricKeys st)
    (requestToEntityId st) (requestToTag st) (fhe st).

Definition set_encryptedMetricAggregates (v : string -> euint32) (st : State) : State :=
  mkState (readingCount st) (twinCount st) (recommendationCount st) (readings st)
    (encryptedTwins st) (decryptedTwins st) (encryptedRecommendations st)
    (decryptedRecommendations st) v (metricKeys st)
    (requestToEntityId st) (requestToTag st) (fhe st).

Definition set_metricKeys (v : list string) (st : State) : State :=
  mkState (readingCount st) (twinCount st) (recommendationCount st) (readings st)
    (encryptedTwins st) (decryptedTwins st) (encryptedRecommendations st)
    (decryptedRecommendations st) (encryptedMetricAggregates st) v
    (requestToEntityId st) (requestToTag st) (fhe st).

Definition set_requestToEntityId (v : uint256 -> uint256) (st : State) : State :=
  mkState (readingCount st) (twinCount st) (recommendationCount st) (readings st)
    (encryptedTwins st) (decryptedTwins st) (encryptedRecommendations st)
    (decryptedRecommendations st) (encryptedMetricAggregates st) (metricKeys st)
    v (requestToTag st) (fhe st).

Definition set_requestToTag (v : uint256 -> bytes32) (st : State) : State :=
  mkState (readingCount st) (twinCount st) (recommendationCount st) (readings st)
    (encryptedTwins st) (decryptedTwins st) (encryptedRecommendations st)
    (decryptedRecommendations st) (encryptedMetricAggregates st) (metricKeys st)
    (requestToEntityId st) v (fhe st).

Definition set_fhe (v : fhe_state) (st : State) : State :=
  mkState (readingCount st) (twinCount st) (recommendationCount st) (readings st)
    (encryptedTwins st) (decryptedTwins st) (encryptedRecommendations st)
    (decryptedRecommendations st) (encryptedMetricAggregates st) (metricKeys st)
    (requestToEntityId st) (requestToTag st) v.

(** What a call that did not revert leaves: the new storage and its events. *)
Definition Receipt : Type := State * list Event.

(** [FHE.checkSignatures(requestId, cleartexts, proof)]. *)
Definition checkSignatures (st : State) (requestId : uint256) (cleartexts proof : bytes)
    : Result unit :=
  if FHE_checkSignatures (fhe st) requestId cleartexts proof
  then Ok tt else Revert InvalidSignatures.

Definition decode_strings (cleartexts : bytes) : Result (list string) :=
  match abi_decode_strings cleartexts with
  | Some parts => Ok parts
  | None => Revert AbiDecodeFailed
  end.

Definition decode_uint32 (cleartexts : bytes) : Result uint32 :=
  match abi_decode_uint32 cleartexts with
  | Some v => Ok v
  | None => Revert AbiDecodeFailed
  end.

(** [FHE.requestDecryption(ciphertexts, selector)], which may revert,
    followed by the two writes every request function makes to the
    correlator. *)
Definition register (st : State) (ciphertexts : list bytes32) (sel : Selector)
    (entityId : uint256) (tag : string) : Result (uint256 * State) :=
  match FHE_requestDecryption (fhe st) ciphertexts sel with
  | None => Revert RequestRejected
  | Some (reqId, f) =>
      let st := set_fhe f st in
      let st := set_requestToEntityId (<[reqId := entityId]> (requestToEntityId st)) st in
      let st := set_requestToTag (<[reqId := keccak256 tag]> (requestToTag st)) st in
      Ok (reqId, st)
  end.

(** ** submitEncryptedReading *)

Definition submitEncryptedReading (now : uint256) (st : State)
    (encryptedTimestamp encryptedTemperature encryptedHumidity
     encryptedCO2 encryptedLight encryptedSoilMoisture : euint32) : Result Receipt :=
  rid ← add256 (readingCount st) 1;
  let st := set_readingCount rid st in
  let r := EncryptedReading.mk rid encryptedTimestamp encryptedTemperature
             encryptedHumidity encryptedCO2 encryptedLight encryptedSoilMoisture in
  let st := set_readings (<[rid := r]> (readings st)) st in
  Ok (st, [ReadingSubmitted rid now]).

(** ** requestTwinUpdate *)

Definition INDEX_OUT_OF_BOUNDS : Z := 50.

(** [a[i] = v] on a memory array. *)
Definition array_store (a : list bytes32) (i : uint256) (v : bytes32)
    : Result (list bytes32) :=
  if i <? Z.of_nat (length a) then Ok (<[Z.to_nat i := v]> a)
  else Revert (Panic INDEX_OUT_OF_BOUNDS).

(** The body of the [for] loop: the six stores for reading [r] at index [i]. *)
Definition requestTwinUpdate_body (r : EncryptedReading.t) (i : uint256)
    (ciphertexts : list bytes32) : Result (list bytes32) :=
  base ← mul256 i 6;
  i0 ← add256 base 0;
  c ← array_store ciphertexts i0 (FHE_toBytes32 (EncryptedReading.encryptedTimestamp r));
  i1 ← add256 base 1;
  c ← array_store c i1 (FHE_toBytes32 (EncryptedReading.encryptedTemperature r));
  i2 ← add256 base 2;
  c ← array_store c i2 (FHE_toBytes32 (EncryptedReading.encryptedHumidity r));
  i3 ← add256 base 3;
  c ← array_store c i3 (FHE_toBytes32 (EncryptedReading.encryptedCO2 r));
  i4 ← add256 base 4;
  c ← array_store c i4 (FHE_toBytes32 (EncryptedReading.encryptedLight r));
  i5 ← add256 base 5;
  array_store c i5 (FHE_toBytes32 (EncryptedReading.encryptedSoilMoisture r)).

(** The loop from index [i] on, [readingIds] being the ids not yet visited. *)
Fixpoint requestTwinUpdate_loop (st : State) (readingIds : list uint256) (i : uint256)
    (ciphertexts : list bytes32) : Result (list bytes32) :=
  match readingIds with
  | [] => Ok ciphertexts
  | readingId :: rest =>
      c ← requestTwinUpdate_body (readings st readingId) i ciphertexts;
      i' ← add256 i 1;
      requestTwinUpdate_loop st rest i' c
  end.

(** The ciphertext array handed to the decryption oracle. *)
Definition requestTwinUpdate_ciphertexts (st : State) (readingIds : list uint256)
    : Result (list bytes32) :=
  let n := Z.of_nat (length readingIds) in
  _ ← require (0 <? n) "No readings provided";
  len ← mul256 n 6;
  requestTwinUpdate_loop st readingIds 0 (replicate (Z.to_nat len) 0).

Definition requestTwinUpdate (st : State) (twinId : uint256) (readingIds : list uint256)
    : Result Receipt :=
  ciphertexts ← requestTwinUpdate_ciphertexts st readingIds;
  '(reqId, st) ← register st ciphertexts decryptTwinUpdate_selector twinId "twin_update";
  Ok (st, [TwinUpdateRequested twinId reqId]).

(** ** decryptTwinUpdate *)

Definition decryptTwinUpdate (now : uint256) (st : State) (requestId : uint256)
    (cleartexts proof : bytes) : Result Receipt :=
  let twinId := requestToEntityId st requestId in
  _ ← require (negb (twinId =? 0)) "Invalid request id";
  _ ← checkSignatures st requestId cleartexts proof;
  parts ← decode_strings cleartexts;
  let summary := match parts !! 0%nat with Some s => s | None => "" end in
  score ← match parts !! 1%nat with Some s => parseUint32 s | None => Ok 0 end;
  let d := DecryptedTwin.mk summary score true in
  let st := set_decryptedTwins (<[twinId := d]> (decryptedTwins st)) st in
  st ← (if EncryptedTwin.id (encryptedTwins st twinId) =? 0 then
          tc ← add256 (twinCount st) 1;
          let st := set_twinCount tc st in
          let t := EncryptedTwin.mk twinId (FHE_asEuint32 0) (FHE_asEuint32 0) now in
          Ok (set_encryptedTwins (<[twinId := t]> (encryptedTwins st)) st)
        else
          let old := encryptedTwins st twinId in
          let t := EncryptedTwin.mk (EncryptedTwin.id old)
                     (EncryptedTwin.encryptedStateHash old)
                     (EncryptedTwin.encryptedHealthScore old) now in
          Ok (set_encryptedTwins (<[twinId := t]> (encryptedTwins st)) st));
  Ok (st, [TwinDecrypted twinId]).

(** ** submitEncryptedRecommendationRequest *)

Definition submitEncryptedRecommendationRequest (now : uint256) (st : State)
    (encryptedWateringSchedule encryptedNutrientPlan encryptedLightAdjust : euint32)
    : Result Receipt :=
  rid ← add256 (recommendationCount st) 1;
  let st := set_recommendationCount rid st in
  let r := EncryptedRecommendation.mk rid encryptedWateringSchedule
             encryptedNutrientPlan encryptedLightAdjust now in
  let st := set_encryptedRecommendations (<[rid := r]> (encryptedRecommendations st)) st in
  let ciphertexts := [FHE_toBytes32 encryptedWateringSchedule;
                      FHE_toBytes32 encryptedNutrientPlan;
                      FHE_toBytes32 encryptedLightAdjust] in
  '(reqId, st) ← register st ciphertexts decryptRecommendation_selector rid "recommendation";
  Ok (st, [RecommendationRequested rid reqId]).

(** ** decryptRecommendation *)

Definition decryptRecommendation (st : State) (requestId : uint256)
    (cleartexts proof : bytes) : Result Receipt :=
  let recId := requestToEntityId st requestId in
  _ ← require (negb (recId =? 0)) "Invalid request";
  _ ← checkSignatures st requestId cleartexts proof;
  items ← decode_strings cleartexts;
  let field (i : nat) := match items !! i with Some s => s | None => "" end in
  let d := DecryptedRecommendation.mk (field 0%nat) (field 1%nat) (field 2%nat) true in
  let st := set_decryptedRecommendations (<[recId := d]> (decryptedRecommendations st)) st in
  Ok (st, [RecommendationDecrypted recId]).

(** ** The aggregate registry *)

Definition addEncryptedAggregate (st : State) (key : string) (encryptedDelta : euint32)
    : Result Receipt :=
  let st :=
    if negb (FHE_isInitialized (encryptedMetricAggregates st key)) then
      let st := set_encryptedMetricAggregates
                  (<[key := FHE_asEuint32 0]> (encryptedMetricAggregates st)) st in
      set_metricKeys (metricKeys st ++ [key]) st
    else st in
  let sum := FHE_add (encryptedMetricAggregates st key) encryptedDelta in
  Ok (set_encryptedMetricAggregates (<[key := sum]> (encryptedMetricAggregates st)) st, []).

Definition requestAggregateDecryption (st : State) (key : string) : Result Receipt :=
  let agg := encryptedMetricAggregates st key in
  _ ← require (FHE_isInitialized agg) "Metric not found";
  let ciphertexts := [FHE_toBytes32 agg] in
  '(reqId, st) ← register st ciphertexts decryptAggregate_selector (keccak256 key) "aggregate";
  Ok (st, []).

(** The loop of [findMetricKeyByHash] over the keys from index [i] on. *)
Fixpoint findMetricKeyByHash_from (keys : list string) (hash : uint256) : Result string :=
  match keys with
  | [] => Revert (Error "Metric key not found")
  | k :: rest => if keccak256 k =? hash then Ok k else findMetricKeyByHash_from rest hash
  end.

Definition findMetricKeyByHash (st : State) (hash : uint256) : Result string :=
  findMetricKeyByHash_from (metricKeys st) hash.

Definition emitPlainAggregateResult (key : string) (value : uint32) : list Event :=
  [PlainAggregateResult key value].

Definition decryptAggregate (st : State) (requestId : uint256)
    (cleartexts proof : bytes) : Result Receipt :=
  _ ← checkSignatures st requestId cleartexts proof;
  let keyHash := requestToEntityId st requestId in
  key ← findMetricKeyByHash st keyHash;
  value ← decode_uint32 cleartexts;
  Ok (st, emitPlainAggregateResult key value).

(** ** View helpers *)

Definition getEncryptedMetric (st : State) (key : string) : euint32 :=
  encryptedMetricAggregates st key.

Definition getDecryptedTwin (st : State) (twinId : uint256) : string * uint32 * bool :=
  let d := decryptedTwins st twinId in
  (DecryptedTwin.stateSummary d, DecryptedTwin.healthScore d, DecryptedTwin.revealed d).

Definition getDecryptedRecommendation (st : State) (recId : uint256)
    : string * string * string * bool :=
  let r := decryptedRecommendations st recId in
  (DecryptedRecommendation.watering r, DecryptedRecommendation.nutrients r,
   DecryptedRecommendation.lightAdjust r, DecryptedRecommendation.revealed r).

(** ** Transactions

    The public functions as the calls a transaction can make; [now] is
    [block.timestamp]. *)

Inductive Call : Type :=
| call_submitEncryptedReading (now : uint256) (ts temp hum co2 light soil : euint32)
| call_requestTwinUpdate (twinId : uint256) (readingIds : list uint256)
| call_decryptTwinUpdate (now : uint256) (requestId : uint256) (cleartexts proof : bytes)
| call_submitEncryptedRecommendationRequest (now : uint256) (w n l : euint32)
| call_decryptRecommendation (requestId : uint256) (cleartexts proof : bytes)
| call_addEncryptedAggregate (key : string) (encryptedDelta : euint32)
| call_requestAggregateDecryption (key : string)
| call_decryptAggregate (requestId : uint256) (cleartexts proof : bytes).

Definition exec (st : State) (c : Call) : Result Receipt :=
  match c with
  | call_submitEncryptedReading now ts temp hum co2 light soil =>
      submitEncryptedReading now st ts temp hum co2 light soil
  | call_requestTwinUpdate twinId readingIds => requestTwinUpdate st twinId readingIds
  | call_decryptTwinUpdate now requestId cleartexts proof =>
      decryptTwinUpdate now st requestId cleartexts proof
  | call_submitEncryptedRecommendationRequest now w n l =>
      submitEncryptedRecommendationRequest now st w n l
  | call_decryptRecommendation requestId cleartexts proof =>
      decryptRecommendation st requestId cleartexts proof
  | call_addEncryptedAggregate key encryptedDelta =>
      addEncryptedAggregate st key encryptedDelta
  | call_requestAggregateDecryption key => requestAggregateDecryption st key
  | call_decryptAggregate requestId cleartexts proof =>
      decryptAggregate st requestId cleartexts proof
  end.

(** A transaction either commits its receipt or, reverted, changes nothing. *)
Definition step (st : State) (c : Call) : State :=
  match exec st c with
  | Ok (st', _) => st'
  | Revert _ => st
  end.

Definition run (st : State) (calls : list Call) : State := fold_left step calls st.

End Contract.

(** ** A test double for the imports

    A small executable stand-in for the FHE library and the built-ins, to
    run the contract on concrete transactions.  A handle carries its
    plaintext above bit 32, so that no handle the library creates is the
    zero handle; the library numbers its requests from one and, as its
    access-control list does for a handle the contract was never granted,
    refuses a request that holds the zero handle; a proof is
    accepted when it repeats the request id in front of the cleartexts; a
    string array is laid out as its strings, each closed by a zero byte. *)

Module TestDouble.

Definition wrap (v : Z) : euint32 := 2 ^ 32 + v mod 2 ^ 32.

Definition plain (h : euint32) : Z := h mod 2 ^ 32.

Definition allowed (handle : bytes32) : bool := negb (handle =? 0).

Definition requestDecryption (counter : Z) (ciphertexts : list bytes32) (_ : Selector)
    : option (uint256 * Z) :=
  if forallb allowed ciphertexts then Some (counter + 1, counter + 1) else None.

Fixpoint bytes_eqb (a b : bytes) : bool :=
  match a, b with
  | [], [] => true
  | x :: a', y :: b' => (x =? y) && bytes_eqb a' b'
  | _, _ => false
  end.

Definition checkSignatures (_ : Z) (requestId : uint256) (cleartexts proof : bytes) : bool :=
  bytes_eqb proof (requestId :: cleartexts).

Fixpoint hash_from (s : string) (h : Z) : Z :=
  match s with
  | EmptyString => h
  | String c rest => hash_from rest (h * 256 + byte_value c)
  end.

Definition hash (s : string) : bytes32 := hash_from s 1.

Fixpoint decode_strings_from (payload : bytes) (cur : string) : option (list string) :=
  match payload with
  | [] => match cur with EmptyString => Some [] | _ => None end
  | b :: rest =>
      if b =? 0 then
        match decode_strings_from rest EmptyString with
        | Some l => Some (String.rev cur :: l)
        | None => None
        end
      else if (0 <? b) && (b <? 256) then
        decode_strings_from rest (String (ascii_of_N (Z.to_N b)) cur)
      else None
  end.

Definition decode_strings (payload : bytes) : option (list string) :=
  decode_strings_from payload EmptyString.

Fixpoint string_bytes (s : string) : bytes :=
  match s with
  | EmptyString => []
  | String c rest => byte_value c :: string_bytes rest
  end.

Definition encode_strings (l : list string) : bytes :=
  flat_map (fun s => string_bytes s ++ [0]) l.

Definition decode_uint32 (payload : bytes) : option uint32 :=
  match payload with
  | [v] => if (0 <=? v) && (v <=? MAX_UINT32) then Some v else None
  | _ => None
  end.

Definition external : External :=
  {| fhe_state := Z;
     FHE_toBytes32 := fun h => h;
     FHE_asEuint32 := wrap;
     FHE_add := fun a b => wrap (plain a + plain b);
     FHE_isInitialized := fun h => negb (h =? 0);
     FHE_requestDecryption := requestDecryption;
     FHE_checkSignatures := checkSignatures;
     keccak256 := hash;
     abi_decode_strings := decode_strings;
     abi_decode_uint32 := decode_uint32 |}.

(** The deployed contract, no request issued yet. *)
Definition deployed : State (E := external) := initial (E := external) 0.

(** A farm at work: three readings, a metric added to twice, and one
    request of each kind; the library numbers them 1, 2 and 3. *)
Definition farm_calls : list Call :=
  [call_submitEncryptedReading 100 (wrap 100) (wrap 21) (wrap 60) (wrap 400) (wrap 800) (wrap 85);
   call_submitEncryptedReading 110 (wrap 110) (wrap 22) (wrap 61) (wrap 410) (wrap 810) (wrap 84);
   call_submitEncryptedReading 120 (wrap 120) (wrap 23) (wrap 62) (wrap 420) (wrap 820) (wrap 83);
   call_addEncryptedAggregate "total_water" (wrap 5);
   call_addEncryptedAggregate "total_water" (wrap 7);
   call_requestTwinUpdate 7 [1; 2; 3];
   call_submitEncryptedRecommendationRequest 130 (wrap 1) (wrap 2) (wrap 3);
   call_requestAggregateDecryption "total_water"].

Definition farm : State (E := external) := run (E := external) deployed farm_calls.

Definition twin_payload : bytes := encode_strings ["Healthy,85% moisture"; "85"].
Definition short_payload : bytes := encode_strings ["Dry"].

Definition advice_payload : bytes := encode_strings ["daily"; "low N"; "+10%"].

(** The farm after the twin-update callback has run once. *)
Definition farm_revealed : State (E := external) :=
  run (E := external) farm [call_decryptTwinUpdate 200 1 twin_payload (1 :: twin_payload)].

(** The farm after the recommendation callback has run once. *)
Definition farm_advised : State (E := external) :=
  run (E := external) farm [call_decryptRecommendation 2 advice_payload (2 :: advice_payload)].

End TestDouble.

(** ** Vocabulary of the statements *)

Section Vocabulary.
Context `{E : External}.

(** A decryption callback, [block.timestamp] already supplied. *)
Definition Callback : Type := State -> uint256 -> bytes -> bytes -> Result Receipt.

(** The callback looks its request up first: a request id the correlator
    does not know is turned away with the callback's own error, whatever
    the proof says. *)
Definition resolves_first (cb : Callback) : Prop :=
  forall st requestId cleartexts proof,
    requestToEntityId st requestId = 0 ->
    exists msg, cb st requestId cleartexts proof = Revert (Error msg).

(** The callback checks the proof first: a proof the library rejects is
    the reason of the revert, whatever the correlator holds. *)
Definition verifies_first (cb : Callback) : Prop :=
  forall st requestId cleartexts proof,
    FHE_checkSignatures (fhe st) requestId cleartexts proof = false ->
    cb st requestId cleartexts proof = Revert InvalidSignatures.

(** Nothing is written or emitted from cleartexts whose proof was rejected. *)
Definition never_acts_unverified (cb : Callback) : Prop :=
  forall st requestId cleartexts proof,
    FHE_checkSignatures (fhe st) requestId cleartexts proof = false ->
    exists r, cb st requestId cleartexts proof = Revert r.

(** The order of section 4.2 read on all three callbacks: each of them
    resolves the request before it looks at the proof. *)
Definition every_callback_resolves_first : Prop :=
  (forall now, resolves_first (decryptTwinUpdate now)) /\
  resolves_first decryptRecommendation /\
  resolves_first decryptAggregate.

(** The six handles of a reading, in the order the loop stores them. *)
Definition reading_handles (r : EncryptedReading.t) : list bytes32 :=
  [FHE_toBytes32 (EncryptedReading.encryptedTimestamp r);
   FHE_toBytes32 (EncryptedReading.encryptedTemperature r);
   FHE_toBytes32 (EncryptedReading.encryptedHumidity r);
   FHE_toBytes32 (EncryptedReading.encryptedCO2 r);
   FHE_toBytes32 (EncryptedReading.encryptedLight r);
   FHE_toBytes32 (EncryptedReading.encryptedSoilMoisture r)].


(** Readings are stored at the ids [1 .. readingCount] and nowhere else. *)
Definition readings_wf (st : State) : Prop :=
  0 <= readingCount st /\
  forall id, id <= 0 \/ readingCount st < id -> readings st id = EncryptedReading.zero.

(** The key list holds exactly the keys whose accumulator is initialized,
    each once. *)
Definition keys_wf (st : State) : Prop :=
  NoDup (metricKeys st) /\
  forall k, k ∈ metricKeys st <->
            FHE_isInitialized (encryptedMetricAggregates st k) = true.

End Vocabulary.

(** ** Vocabulary for decimal strings and call sequences *)

(** The character of the decimal digit [d]. *)
Definition digit_char (d : Z) : ascii := ascii_of_N (Z.to_N (48 + d)).

Fixpoint digit_string (ds : list Z) : string :=
  match ds with
  | [] => EmptyString
  | d :: ds' => String (digit_char d) (digit_string ds')
  end.

Definition is_digit (d : Z) : Prop := 0 <= d <= 9.

(** The number the digits [ds] spell when read after a number [acc]. *)
Definition digits_value_from (acc : Z) (ds : list Z) : Z :=
  fold_left (fun a d => a * 10 + d) ds acc.

Definition digits_value (ds : list Z) : Z := digits_value_from 0 ds.

(** [rest] does not go on with a digit. *)
Definition stops (rest : string) : Prop :=
  match rest with
  | EmptyString => True
  | String c _ => ~ (48 <= byte_value c <= 57)
  end.

(** What a [submitEncryptedReading] call stores, as a function of the id
    the reading gets. *)
Definition reading_payload (c : Call) : option (uint256 -> EncryptedReading.t) :=
  match c with
  | call_submitEncryptedReading _ ts temp hum co2 light soil =>
      Some (fun rid => EncryptedReading.mk rid ts temp hum co2 light soil)
  | _ => None
  end.

(** The readings a call sequence submits, in order. *)
Definition reading_payloads (calls : list Call) : list (uint256 -> EncryptedReading.t) :=
  omap reading_payload calls.

Section TwinVocabulary.
Context `{E : External}.

(** A twin either has no record and no view, or it has been revealed: its
    record carries its own id and the two handles [FHE.asEuint32(0)]. *)
Definition twins_wf (st : State) : Prop :=
  forall t,
    (encryptedTwins st t = EncryptedTwin.zero /\
     decryptedTwins st t = DecryptedTwin.zero) \/
    (t <> 0 /\
     EncryptedTwin.id (encryptedTwins st t) = t /\
     EncryptedTwin.encryptedStateHash (encryptedTwins st t) = FHE_asEuint32 0 /\
     EncryptedTwin.encryptedHealthScore (encryptedTwins st t) = FHE_asEuint32 0 /\
     DecryptedTwin.revealed (decryptedTwins st t) = true).

(** Recommendations are stored at the ids [1 .. recommendationCount], each
    under its own id, and nowhere else. *)
Definition recommendations_wf (st : State) : Prop :=
  0 <= recommendationCount st /\
  forall id,
    (1 <= id <= recommendationCount st ->
     EncryptedRecommendation.id (encryptedRecommendations st id) = id) /\
    (id <= 0 \/ recommendationCount st < id ->
     encryptedRecommendations st id = EncryptedRecommendation.zero).

End TwinVocabulary.

(** * Properties *)

Section Properties.
Context `{E : External}.

Ltac unbind := unfold mbind, Result_bind, mret, Result_ret in *.

(** ** Checked arithmetic *)

Lemma checked_ok (bound v : Z) : 0 <= v <= bound -> checked bound v = Ok v.
Proof.
  intros [Hlo Hhi]. unfold checked.
  apply Z.leb_le in Hlo. apply Z.leb_le in Hhi.
  by rewrite Hlo, Hhi.
Qed.

Lemma checked_inv (bound v r : Z) : checked bound v = Ok r -> r = v /\ 0 <= v <= bound.
Proof.
  unfold checked. destruct (0 <=? v) eqn:Hlo; destruct (v <=? bound) eqn:Hhi;
    simpl; intros Heq; try discriminate.
  inversion Heq. apply Z.leb_le in Hlo. apply Z.leb_le in Hhi. lia.
Qed.

Lemma add256_ok (a b : Z) : 0 <= a + b <= MAX_UINT256 -> add256 a b = Ok (a + b).
Proof. apply checked_ok. Qed.

Lemma mul256_ok (a b : Z) : 0 <= a * b <= MAX_UINT256 -> mul256 a b = Ok (a * b).
Proof. apply checked_ok. Qed.

(** ** The three checks, one at a time *)

Lemma checkSignatures_true st requestId cleartexts proof :
  FHE_checkSignatures (fhe st) requestId cleartexts proof = true ->
  checkSignatures st requestId cleartexts proof = Ok tt.
Proof. unfold checkSignatures. by intros ->. Qed.

Lemma checkSignatures_false st requestId cleartexts proof :
  FHE_checkSignatures (fhe st) requestId cleartexts proof = false ->
  checkSignatures st requestId cleartexts proof = Revert InvalidSignatures.
Proof. unfold checkSignatures. by intros ->. Qed.

Lemma findMetricKeyByHash_from_absent (keys : list string) (hash : uint256) :
  Forall (fun k => keccak256 k <> hash) keys ->
  findMetricKeyByHash_from keys hash = Revert (Error "Metric key not found").
Proof.
  induction 1 as [|k keys Hk _ IH]; simpl; [done|].
  destruct (Z.eqb_spec (keccak256 k) hash); [contradiction | exact IH].
Qed.

Lemma findMetricKeyByHash_from_found (keys : list string) (hash : uint256) (key : string) :
  findMetricKeyByHash_from keys hash = Ok key ->
  key ∈ keys /\ keccak256 key = hash.
Proof.
  induction keys as [|k keys IH]; simpl; [discriminate|].
  destruct (Z.eqb_spec (keccak256 k) hash) as [Heq|_].
  - intros [= <-]. split; [left | exact Heq].
  - intros Hfound. destruct (IH Hfound). split; [by right | done].
Qed.

(** ** decryptAggregate *)

Lemma decryptAggregate_ok st requestId cleartexts proof key value :
  FHE_checkSignatures (fhe st) requestId cleartexts proof = true ->
  findMetricKeyByHash st (requestToEntityId st requestId) = Ok key ->
  abi_decode_uint32 cleartexts = Some value ->
  decryptAggregate st requestId cleartexts proof = Ok (st, [PlainAggregateResult key value]).
Proof.
  intros Hsig Hkey Hval. unfold decryptAggregate, decode_uint32.
  rewrite (checkSignatures_true _ _ _ _ Hsig). unbind.
  by rewrite Hkey, Hval.
Qed.

Lemma decryptAggregate_inv st requestId cleartexts proof st' evs :
  decryptAggregate st requestId cleartexts proof = Ok (st', evs) ->
  st' = st /\
  FHE_checkSignatures (fhe st) requestId cleartexts proof = true /\
  exists key value,
    evs = [PlainAggregateResult key value] /\
    findMetricKeyByHash st (requestToEntityId st requestId) = Ok key /\
    abi_decode_uint32 cleartexts = Some value.
Proof.
  unfold decryptAggregate, checkSignatures, decode_uint32. unbind.
  destruct (FHE_checkSignatures _ _ _ _); [|discriminate].
  destruct (findMetricKeyByHash _ _) as [key|]; [|discriminate].
  destruct (abi_decode_uint32 _) as [value|]; [|discriminate].
  intros [= <- <-]. eauto 10.
Qed.

(** C9. [decryptAggregate] writes nothing: whatever it is called with, the
    storage after the transaction is the storage before it, and when it
    does not revert the revealed value leaves the contract in exactly one
    [PlainAggregateResult] event, carrying the decoded cleartext and the
    key found for the request.  It does not revert when the proof is
    accepted, a key with the registered hash is listed and the payload
    decodes. *)
Theorem decryptAggregate_broadcasts_only st requestId cleartexts proof :
  step st (call_decryptAggregate requestId cleartexts proof) = st /\
  (forall st' evs,
     decryptAggregate st requestId cleartexts proof = Ok (st', evs) ->
     st' = st /\
     exists key value,
       evs = emitPlainAggregateResult key value /\
       abi_decode_uint32 cleartexts = Some value /\
       findMetricKeyByHash st (requestToEntityId st requestId) = Ok key) /\
  (forall key value,
     FHE_checkSignatures (fhe st) requestId cleartexts proof = true ->
     findMetricKeyByHash st (requestToEntityId st requestId) = Ok key ->
     abi_decode_uint32 cleartexts = Some value ->
     decryptAggregate st requestId cleartexts proof
       = Ok (st, [PlainAggregateResult key value])).
Proof.
  split; [|split].
  - unfold step. simpl.
    destruct (decryptAggregate _ _ _ _) as [[st' evs]|] eqn:Hrun; [|done].
    by destruct (decryptAggregate_inv _ _ _ _ _ _ Hrun).
  - intros st' evs Hrun.
    destruct (decryptAggregate_inv _ _ _ _ _ _ Hrun) as (-> & _ & key & value & -> & ? & ?).
    split; [done|]. by exists key, value.
  - intros key value. apply decryptAggregate_ok.
Qed.

(** ** The twin-update callback *)

Lemma decryptTwinUpdate_unknown now st requestId cleartexts proof :
  requestToEntityId st requestId = 0 ->
  decryptTwinUpdate now st requestId cleartexts proof = Revert (Error "Invalid request id").
Proof. unfold decryptTwinUpdate. by intros ->. Qed.

Lemma decryptTwinUpdate_unverified now st requestId cleartexts proof :
  requestToEntityId st requestId <> 0 ->
  FHE_checkSignatures (fhe st) requestId cleartexts proof = false ->
  decryptTwinUpdate now st requestId cleartexts proof = Revert InvalidSignatures.
Proof.
  intros Hreg Hsig. unfold decryptTwinUpdate.
  destruct (Z.eqb_spec (requestToEntityId st requestId) 0); [contradiction|].
  simpl. by rewrite (checkSignatures_false _ _ _ _ Hsig).
Qed.

Lemma decryptTwinUpdate_ok now st requestId cleartexts proof parts score :
  let twinId := requestToEntityId st requestId in
  twinId <> 0 ->
  FHE_checkSignatures (fhe st) requestId cleartexts proof = true ->
  abi_decode_strings cleartexts = Some parts ->
  match parts !! 1%nat with Some s => parseUint32 s | None => Ok 0 end = Ok score ->
  EncryptedTwin.id (encryptedTwins st twinId) <> 0 \/ 0 <= twinCount st < MAX_UINT256 ->
  exists st',
    decryptTwinUpdate now st requestId cleartexts proof = Ok (st', [TwinDecrypted twinId]) /\
    decryptedTwins st' twinId =
      DecryptedTwin.mk (default "" (parts !! 0%nat)) score true /\
    EncryptedTwin.id (encryptedTwins st' twinId) <> 0 /\
    EncryptedTwin.lastUpdated (encryptedTwins st' twinId) = now /\
    requestToEntityId st' = requestToEntityId st /\
    requestToTag st' = requestToTag st /\
    fhe st' = fhe st.
Proof.
  intros twinId Hreg Hsig Hdec Hscore Hroom. unfold decryptTwinUpdate, decode_strings.
  fold twinId.
  destruct (Z.eqb_spec twinId 0); [contradiction|]. simpl.
  rewrite (checkSignatures_true _ _ _ _ Hsig). unbind.
  rewrite Hdec, Hscore. simpl.
  destruct (Z.eqb_spec (EncryptedTwin.id (encryptedTwins st twinId)) 0) as [Hnew|Hold].
  - destruct Hroom as [?|Hroom]; [contradiction|].
    rewrite add256_ok by lia.
    eexists. split; [reflexivity|]. simpl.
    rewrite !fn_lookup_insert. simpl.
    by destruct (parts !! 0%nat).
  - eexists. split; [reflexivity|]. simpl.
    rewrite !fn_lookup_insert. simpl.
    by destruct (parts !! 0%nat).
Qed.

Lemma decryptTwinUpdate_inv now st requestId cleartexts proof st' evs :
  decryptTwinUpdate now st requestId cleartexts proof = Ok (st', evs) ->
  let twinId := requestToEntityId st requestId in
  twinId <> 0 /\
  FHE_checkSignatures (fhe st) requestId cleartexts proof = true /\
  evs = [TwinDecrypted twinId] /\
  exists parts score,
    abi_decode_strings cleartexts = Some parts /\
    match parts !! 1%nat with Some s => parseUint32 s | None => Ok 0 end = Ok score /\
    decryptedTwins st' twinId =
      DecryptedTwin.mk (default "" (parts !! 0%nat)) score true /\
    EncryptedTwin.id (encryptedTwins st' twinId) <> 0 /\
    requestToEntityId st' = requestToEntityId st /\
    requestToTag st' = requestToTag st /\
    fhe st' = fhe st.
Proof.
  unfold decryptTwinUpdate, checkSignatures, decode_strings. unbind.
  destruct (Z.eqb_spec (requestToEntityId st requestId) 0) as [|Hreg]; [discriminate|].
  simpl.
  destruct (FHE_checkSignatures _ _ _ _); [|discriminate].
  destruct (abi_decode_strings _) as [parts|]; [|discriminate].
  destruct (match parts !! 1%nat with Some s => parseUint32 s | None => Ok 0 end)
    as [score|] eqn:Hscore; [|discriminate].
  simpl.
  match goal with
  | |- context [if ?c =? 0 then _ else _] => destruct (Z.eqb_spec c 0) as [_|Hold]
  end.
  - destruct (add256 _ _); [|discriminate]. intros [= <- <-].
    do 3 (split; [done|]). exists parts, score. simpl.
    rewrite !fn_lookup_insert. simpl. by destruct (parts !! 0%nat).
  - intros [= <- <-].
    do 3 (split; [done|]). exists parts, score. simpl.
    rewrite !fn_lookup_insert. simpl. by destruct (parts !! 0%nat).
Qed.

(** ** The recommendation callback *)

Lemma decryptRecommendation_unknown st requestId cleartexts proof :
  requestToEntityId st requestId = 0 ->
  decryptRecommendation st requestId cleartexts proof = Revert (Error "Invalid request").
Proof. unfold decryptRecommendation. by intros ->. Qed.

Lemma decryptRecommendation_unverified st requestId cleartexts proof :
  requestToEntityId st requestId <> 0 ->
  FHE_checkSignatures (fhe st) requestId cleartexts proof = false ->
  decryptRecommendation st requestId cleartexts proof = Revert InvalidSignatures.
Proof.
  intros Hreg Hsig. unfold decryptRecommendation.
  destruct (Z.eqb_spec (requestToEntityId st requestId) 0); [contradiction|].
  simpl. by rewrite (checkSignatures_false _ _ _ _ Hsig).
Qed.

Lemma decryptRecommendation_ok st requestId cleartexts proof items :
  let recId := requestToEntityId st requestId in
  recId <> 0 ->
  FHE_checkSignatures (fhe st) requestId cleartexts proof = true ->
  abi_decode_strings cleartexts = Some items ->
  exists st',
    decryptRecommendation st requestId cleartexts proof
      = Ok (st', [RecommendationDecrypted recId]) /\
    decryptedRecommendations st' recId =
      DecryptedRecommendation.mk (default "" (items !! 0%nat)) (default "" (items !! 1%nat))
        (default "" (items !! 2%nat)) true /\
    requestToEntityId st' = requestToEntityId st /\
    requestToTag st' = requestToTag st /\
    fhe st' = fhe st.
Proof.
  intros recId Hreg Hsig Hdec. unfold decryptRecommendation, decode_strings.
  fold recId.
  destruct (Z.eqb_spec recId 0); [contradiction|]. simpl.
  rewrite (checkSignatures_true _ _ _ _ Hsig). unbind.
  rewrite Hdec. eexists. split; [reflexivity|]. simpl.
  rewrite fn_lookup_insert.
  by destruct (items !! 0%nat), (items !! 1%nat), (items !! 2%nat).
Qed.

Lemma decryptRecommendation_inv st requestId cleartexts proof st' evs :
  decryptRecommendation st requestId cleartexts proof = Ok (st', evs) ->
  let recId := requestToEntityId st requestId in
  recId <> 0 /\
  FHE_checkSignatures (fhe st) requestId cleartexts proof = true /\
  evs = [RecommendationDecrypted recId] /\
  exists items,
    abi_decode_strings cleartexts = Some items /\
    decryptedRecommendations st' recId =
      DecryptedRecommendation.mk (default "" (items !! 0%nat)) (default "" (items !! 1%nat))
        (default "" (items !! 2%nat)) true /\
    requestToEntityId st' = requestToEntityId st /\
    requestToTag st' = requestToTag st /\
    fhe st' = fhe st.
Proof.
  unfold decryptRecommendation, checkSignatures, decode_strings. unbind.
  destruct (Z.eqb_spec (requestToEntityId st requestId) 0) as [|Hreg]; [discriminate|].
  simpl.
  destruct (FHE_checkSignatures _ _ _ _); [|discriminate].
  destruct (abi_decode_strings _) as [items|]; [|discriminate].
  intros [= <- <-]. repeat split; [done|]. exists items. simpl.
  rewrite fn_lookup_insert.
  by destruct (items !! 0%nat), (items !! 1%nat), (items !! 2%nat).
Qed.

(** ** Requests the correlator does not know *)

Lemma decryptAggregate_unknown st requestId cleartexts proof :
  requestToEntityId st requestId = 0 ->
  Forall (fun k => keccak256 k <> 0) (metricKeys st) ->
  exists r, decryptAggregate st requestId cleartexts proof = Revert r.
Proof.
  intros Hreg Hkeys. unfold decryptAggregate, checkSignatures, findMetricKeyByHash. unbind.
  destruct (FHE_checkSignatures _ _ _ _); [|by eexists].
  rewrite Hreg, (findMetricKeyByHash_from_absent _ _ Hkeys). by eexists.
Qed.

(** C2. A request id whose correlator slot holds the "absent" value zero
    is rejected by each of the three callbacks, and the storage after the
    transaction is the storage before it.  [decryptTwinUpdate] and
    [decryptRecommendation] reject it by their own [require].
    [decryptAggregate] carries no such check: it rejects the request when
    the proof fails or, the proof accepted, in [findMetricKeyByHash],
    because no stored metric key hashes to zero, which is what the second
    hypothesis records about [keccak256]. *)
Theorem unknown_request_rejected now st requestId cleartexts proof :
  requestToEntityId st requestId = 0 ->
  Forall (fun k => keccak256 k <> 0) (metricKeys st) ->
  decryptTwinUpdate now st requestId cleartexts proof
    = Revert (Error "Invalid request id") /\
  decryptRecommendation st requestId cleartexts proof
    = Revert (Error "Invalid request") /\
  (exists r, decryptAggregate st requestId cleartexts proof = Revert r) /\
  (FHE_checkSignatures (fhe st) requestId cleartexts proof = true ->
   decryptAggregate st requestId cleartexts proof
     = Revert (Error "Metric key not found")) /\
  step st (call_decryptTwinUpdate now requestId cleartexts proof) = st /\
  step st (call_decryptRecommendation requestId cleartexts proof) = st /\
  step st (call_decryptAggregate requestId cleartexts proof) = st.
Proof.
  intros Hreg Hkeys.
  pose proof (decryptTwinUpdate_unknown now _ _ cleartexts proof Hreg) as Htwin.
  pose proof (decryptRecommendation_unknown _ _ cleartexts proof Hreg) as Hrec.
  destruct (decryptAggregate_unknown _ _ cleartexts proof Hreg Hkeys) as [r Hagg].
  unfold step. simpl. rewrite Htwin, Hrec, Hagg.
  do 2 (split; [done|]). split; [by exists r|]. split; [|done].
  intros Hsig. rewrite <- Hagg. unfold decryptAggregate, findMetricKeyByHash.
  rewrite (checkSignatures_true _ _ _ _ Hsig), Hreg. unbind.
  by rewrite (findMetricKeyByHash_from_absent _ _ Hkeys).
Qed.

(** ** The order of the checks *)

Lemma decryptAggregate_verifies_first : verifies_first decryptAggregate.
Proof.
  intros st requestId cleartexts proof Hsig. unfold decryptAggregate.
  by rewrite (checkSignatures_false _ _ _ _ Hsig).
Qed.

Lemma decryptTwinUpdate_never_acts_unverified now :
  never_acts_unverified (decryptTwinUpdate now).
Proof.
  intros st requestId cleartexts proof Hsig.
  destruct (decide (requestToEntityId st requestId = 0)) as [Hreg|Hreg].
  - eexists. by apply decryptTwinUpdate_unknown.
  - eexists. by apply decryptTwinUpdate_unverified.
Qed.

Lemma decryptRecommendation_never_acts_unverified :
  never_acts_unverified decryptRecommendation.
Proof.
  intros st requestId cleartexts proof Hsig.
  destruct (decide (requestToEntityId st requestId = 0)) as [Hreg|Hreg].
  - eexists. by apply decryptRecommendation_unknown.
  - eexists. by apply decryptRecommendation_unverified.
Qed.

(** C3, as the code has it.  [decryptTwinUpdate] and
    [decryptRecommendation] resolve the request first and reject an unknown
    one whatever the proof, then check the proof and reject a bad one
    before decoding, then decode, write the decrypted view and emit their
    event.  [decryptAggregate] checks the proof first, whatever the
    correlator holds, then resolves the request to a metric key, decodes
    and emits, and writes nothing.  No callback writes or emits anything
    from cleartexts whose proof was rejected. *)
Theorem callbacks_check_before_acting :
  (forall now, resolves_first (decryptTwinUpdate now)) /\
  resolves_first decryptRecommendation /\
  verifies_first decryptAggregate /\
  (forall now, never_acts_unverified (decryptTwinUpdate now)) /\
  never_acts_unverified decryptRecommendation /\
  never_acts_unverified decryptAggregate /\
  (forall now st requestId cleartexts proof,
     requestToEntityId st requestId <> 0 ->
     FHE_checkSignatures (fhe st) requestId cleartexts proof = false ->
     decryptTwinUpdate now st requestId cleartexts proof = Revert InvalidSignatures /\
     decryptRecommendation st requestId cleartexts proof = Revert InvalidSignatures) /\
  (forall now st requestId cleartexts proof st' evs,
     decryptTwinUpdate now st requestId cleartexts proof = Ok (st', evs) ->
     requestToEntityId st requestId <> 0 /\
     FHE_checkSignatures (fhe st) requestId cleartexts proof = true /\
     (exists parts, abi_decode_strings cleartexts = Some parts /\
        DecryptedTwin.stateSummary (decryptedTwins st' (requestToEntityId st requestId))
          = default "" (parts !! 0%nat)) /\
     DecryptedTwin.revealed (decryptedTwins st' (requestToEntityId st requestId)) = true /\
     evs = [TwinDecrypted (requestToEntityId st requestId)]) /\
  (forall st requestId cleartexts proof st' evs,
     decryptRecommendation st requestId cleartexts proof = Ok (st', evs) ->
     requestToEntityId st requestId <> 0 /\
     FHE_checkSignatures (fhe st) requestId cleartexts proof = true /\
     (exists items, abi_decode_strings cleartexts = Some items /\
        DecryptedRecommendation.watering
          (decryptedRecommendations st' (requestToEntityId st requestId))
          = default "" (items !! 0%nat)) /\
     DecryptedRecommendation.revealed
       (decryptedRecommendations st' (requestToEntityId st requestId)) = true /\
     evs = [RecommendationDecrypted (requestToEntityId st requestId)]) /\
  (forall st requestId cleartexts proof st' evs,
     decryptAggregate st requestId cleartexts proof = Ok (st', evs) ->
     FHE_checkSignatures (fhe st) requestId cleartexts proof = true /\
     st' = st /\
     exists key value,
       findMetricKeyByHash st (requestToEntityId st requestId) = Ok key /\
       abi_decode_uint32 cleartexts = Some value /\
       evs = [PlainAggregateResult key value]).
Proof.
  split; [|split; [|split; [|split; [|split; [|split; [|split; [|split; [|split]]]]]]]].
  - intros now st requestId cleartexts proof Hreg. eexists.
    by apply decryptTwinUpdate_unknown.
  - intros st requestId cleartexts proof Hreg. eexists.
    by apply decryptRecommendation_unknown.
  - apply decryptAggregate_verifies_first.
  - apply decryptTwinUpdate_never_acts_unverified.
  - apply decryptRecommendation_never_acts_unverified.
  - intros st requestId cleartexts proof Hsig. eexists.
    by apply decryptAggregate_verifies_first.
  - intros now st requestId cleartexts proof Hreg Hsig. split.
    + by apply decryptTwinUpdate_unverified.
    + by apply decryptRecommendation_unverified.
  - intros now st requestId cleartexts proof st' evs Hrun.
    destruct (decryptTwinUpdate_inv _ _ _ _ _ _ _ Hrun)
      as (Hreg & Hsig & -> & parts & score & Hdec & _ & Hview & _).
    rewrite Hview. simpl. eauto 10.
  - intros st requestId cleartexts proof st' evs Hrun.
    destruct (decryptRecommendation_inv _ _ _ _ _ _ Hrun)
      as (Hreg & Hsig & -> & items & Hdec & Hview & _).
    rewrite Hview. simpl. eauto 10.
  - intros st requestId cleartexts proof st' evs Hrun.
    destruct (decryptAggregate_inv _ _ _ _ _ _ Hrun)
      as (-> & Hsig & key & value & -> & Hkey & Hval).
    eauto 10.
Qed.

(** ** Short payloads *)

(** C6. A payload that decodes to fewer strings than the callback reads
    is not rejected: the twin-update callback stores the empty summary for
    a missing first string and the score zero for a missing second one,
    the recommendation callback stores the empty string for each missing
    trailing field; both go through and emit their event.  The request is
    a registered one and the proof is accepted; for the twin callback the
    twin record exists already or the twin counter has room for it. *)
Theorem short_payload_filled_with_defaults now st requestId cleartexts proof fields :
  requestToEntityId st requestId <> 0 ->
  FHE_checkSignatures (fhe st) requestId cleartexts proof = true ->
  abi_decode_strings cleartexts = Some fields ->
  let entityId := requestToEntityId st requestId in
  ((length fields < 2)%nat ->
   EncryptedTwin.id (encryptedTwins st entityId) <> 0 \/ 0 <= twinCount st < MAX_UINT256 ->
   exists st',
     decryptTwinUpdate now st requestId cleartexts proof = Ok (st', [TwinDecrypted entityId]) /\
     decryptedTwins st' entityId = DecryptedTwin.mk (default "" (fields !! 0%nat)) 0 true) /\
  ((length fields < 3)%nat ->
   exists st',
     decryptRecommendation st requestId cleartexts proof
       = Ok (st', [RecommendationDecrypted entityId]) /\
     decryptedRecommendations st' entityId =
       DecryptedRecommendation.mk (default "" (fields !! 0%nat))
         (default "" (fields !! 1%nat)) "" true).
Proof.
  intros Hreg Hsig Hdec entityId. split.
  - intros Hshort Hroom.
    destruct (decryptTwinUpdate_ok now st requestId cleartexts proof fields 0)
      as (st' & Hrun & Hview & _); auto.
    + rewrite (lookup_ge_None_2 fields 1) by lia. done.
    + by exists st'.
  - intros Hshort.
    destruct (decryptRecommendation_ok st requestId cleartexts proof fields)
      as (st' & Hrun & Hview & _); auto.
    rewrite (lookup_ge_None_2 fields 2) in Hview by lia.
    by exists st'.
Qed.

(** ** Empty batches *)

(** C7. [requestTwinUpdate] with no reading ids reverts at its [require],
    for every twin id and every storage: nothing is registered, no
    decryption is requested, no event is emitted, and the storage after
    the transaction is the storage before it. *)
Theorem empty_batch_rejected st twinId :
  requestTwinUpdate st twinId [] = Revert (Error "No readings provided") /\
  step st (call_requestTwinUpdate twinId []) = st.
Proof. split; reflexivity. Qed.

(** ** The twin-update scenario *)

(** C8. For a registered twin-update request (its correlator slot holds
    the twin id, which is not the "absent" value zero), a payload that
    decodes to the two strings of the scenario and an accepted proof leave
    the decrypted view of that twin with the summary, the score 85 and
    the revealed flag; [parseUint32] reads "85" as 85.  The twin record
    exists already or the twin counter has room for it. *)
Theorem twin_update_scenario now st requestId twinId cleartexts proof :
  requestToEntityId st requestId = twinId ->
  twinId <> 0 ->
  FHE_checkSignatures (fhe st) requestId cleartexts proof = true ->
  abi_decode_strings cleartexts = Some ["Healthy,85% moisture"; "85"] ->
  EncryptedTwin.id (encryptedTwins st twinId) <> 0 \/ 0 <= twinCount st < MAX_UINT256 ->
  parseUint32 "85" = Ok 85 /\
  exists st',
    decryptTwinUpdate now st requestId cleartexts proof = Ok (st', [TwinDecrypted twinId]) /\
    decryptedTwins st' twinId = DecryptedTwin.mk "Healthy,85% moisture" 85 true /\
    getDecryptedTwin st' twinId = ("Healthy,85% moisture", 85, true).
Proof.
  intros Hent Hreg Hsig Hdec Hroom. split; [reflexivity|]. subst twinId.
  destruct (decryptTwinUpdate_ok now st requestId cleartexts proof
              ["Healthy,85% moisture"; "85"] 85)
    as (st' & Hrun & Hview & _); auto.
  exists st'. unfold getDecryptedTwin. rewrite Hview. done.
Qed.

(** ** The ciphertext array of a twin-update request *)

Lemma array_store_ok (a : list bytes32) (i : uint256) (v : bytes32) (n : nat) :
  i = Z.of_nat n -> (n < length a)%nat ->
  array_store a i v = Ok (<[n := v]> a).
Proof.
  intros -> Hlt. unfold array_store.
  destruct (Z.ltb_spec (Z.of_nat n) (Z.of_nat (length a))); [|lia].
  by rewrite Nat2Z.id.
Qed.

Lemma requestTwinUpdate_body_ok (r : EncryptedReading.t) (i : uint256)
    (pre post : list bytes32) (a0 a1 a2 a3 a4 a5 : bytes32) :
  Z.of_nat (length pre) = i * 6 ->
  i * 6 + 5 <= MAX_UINT256 ->
  requestTwinUpdate_body r i (pre ++ a0 :: a1 :: a2 :: a3 :: a4 :: a5 :: post)
    = Ok (pre ++ reading_handles r ++ post).
Proof.
  intros Hbase Hmax. unfold requestTwinUpdate_body.
  rewrite mul256_ok by lia. unbind.
  rewrite (add256_ok (i * 6) 0) by lia.
  rewrite (array_store_ok _ _ _ (length pre + 0)%nat)
    by (rewrite ?length_insert, ?length_app; simpl; lia).
  rewrite (add256_ok (i * 6) 1) by lia.
  rewrite (array_store_ok _ _ _ (length pre + 1)%nat)
    by (rewrite ?length_insert, ?length_app; simpl; lia).
  rewrite (add256_ok (i * 6) 2) by lia.
  rewrite (array_store_ok _ _ _ (length pre + 2)%nat)
    by (rewrite ?length_insert, ?length_app; simpl; lia).
  rewrite (add256_ok (i * 6) 3) by lia.
  rewrite (array_store_ok _ _ _ (length pre + 3)%nat)
    by (rewrite ?length_insert, ?length_app; simpl; lia).
  rewrite (add256_ok (i * 6) 4) by lia.
  rewrite (array_store_ok _ _ _ (length pre + 4)%nat)
    by (rewrite ?length_insert, ?length_app; simpl; lia).
  rewrite (add256_ok (i * 6) 5) by lia.
  rewrite (array_store_ok _ _ _ (length pre + 5)%nat)
    by (rewrite ?length_insert, ?length_app; simpl; lia).
  by rewrite !insert_app_r.
Qed.

Lemma requestTwinUpdate_loop_ok st (readingIds : list uint256) :
  forall (i : uint256) (pre post : list bytes32),
    Z.of_nat (length pre) = i * 6 ->
    length post = (6 * length readingIds)%nat ->
    Z.of_nat (length pre + length post) <= MAX_UINT256 ->
    requestTwinUpdate_loop st readingIds i (pre ++ post)
      = Ok (pre ++ flat_map (fun id => reading_handles (readings st id)) readingIds).
Proof.
  induction readingIds as [|readingId rest IH]; intros i pre post Hbase Hlen Hmax.
  - destruct post; [done | discriminate].
  - do 6 (destruct post as [|? post]; [simpl in Hlen; lia|]).
    simpl in Hlen. cbn [requestTwinUpdate_loop flat_map].
    rewrite requestTwinUpdate_body_ok by (simpl in Hmax; lia). unbind.
    rewrite add256_ok by (simpl in Hmax; lia).
    rewrite !app_assoc.
    apply IH.
    + rewrite length_app. simpl. lia.
    + lia.
    + rewrite length_app. simpl in *. lia.
Qed.

Lemma requestTwinUpdate_ciphertexts_ok st (readingIds : list uint256) :
  readingIds <> [] ->
  6 * Z.of_nat (length readingIds) <= MAX_UINT256 ->
  requestTwinUpdate_ciphertexts st readingIds
    = Ok (flat_map (fun id => reading_handles (readings st id)) readingIds).
Proof.
  intros Hne Hmax. unfold requestTwinUpdate_ciphertexts.
  destruct (Z.ltb_spec 0 (Z.of_nat (length readingIds))) as [_|Hzero];
    [|destruct readingIds; [done | simpl in Hzero; lia]].
  simpl. rewrite mul256_ok by lia. unbind.
  apply (requestTwinUpdate_loop_ok st readingIds 0 []).
  - done.
  - rewrite length_replicate. lia.
  - rewrite length_replicate. simpl. lia.
Qed.

(** ** Registration *)

Lemma register_inv st (ciphertexts : list bytes32) (sel : Selector)
    (entityId : uint256) (tag : string) reqId st' :
  register st ciphertexts sel entityId tag = Ok (reqId, st') ->
  FHE_requestDecryption (fhe st) ciphertexts sel = Some (reqId, fhe st') /\
  requestToEntityId st' = <[reqId := entityId]> (requestToEntityId st) /\
  requestToTag st' = <[reqId := keccak256 tag]> (requestToTag st).
Proof.
  unfold register. destruct (FHE_requestDecryption _ _ _) as [[reqId' f]|]; [|discriminate].
  by intros [= <- <-].
Qed.

Lemma register_accepted st (ciphertexts : list bytes32) (sel : Selector)
    (entityId : uint256) (tag : string) reqId f :
  FHE_requestDecryption (fhe st) ciphertexts sel = Some (reqId, f) ->
  exists st',
    register st ciphertexts sel entityId tag = Ok (reqId, st') /\
    requestToEntityId st' reqId = entityId /\
    requestToTag st' reqId = keccak256 tag /\
    fhe st' = f.
Proof.
  intros Hlib. unfold register. rewrite Hlib. eexists. split; [reflexivity|].
  simpl. by rewrite !fn_lookup_insert.
Qed.

Lemma register_rejected st (ciphertexts : list bytes32) (sel : Selector)
    (entityId : uint256) (tag : string) :
  FHE_requestDecryption (fhe st) ciphertexts sel = None ->
  register st ciphertexts sel entityId tag = Revert RequestRejected.
Proof. intros Hlib. unfold register. by rewrite Hlib. Qed.

(** Registration writes the library's record and the correlator only. *)
Lemma register_frame st (ciphertexts : list bytes32) (sel : Selector)
    (entityId : uint256) (tag : string) reqId st' :
  register st ciphertexts sel entityId tag = Ok (reqId, st') ->
  readingCount st' = readingCount st /\
  readings st' = readings st /\
  metricKeys st' = metricKeys st /\
  encryptedMetricAggregates st' = encryptedMetricAggregates st /\
  twinCount st' = twinCount st /\
  encryptedTwins st' = encryptedTwins st /\
  decryptedTwins st' = decryptedTwins st /\
  recommendationCount st' = recommendationCount st /\
  encryptedRecommendations st' = encryptedRecommendations st /\
  decryptedRecommendations st' = decryptedRecommendations st.
Proof.
  unfold register. destruct (FHE_requestDecryption _ _ _) as [[reqId' f]|]; [|discriminate].
  by intros [= <- <-].
Qed.

Lemma requestTwinUpdate_ok st twinId (readingIds : list uint256) reqId f :
  readingIds <> [] ->
  6 * Z.of_nat (length readingIds) <= MAX_UINT256 ->
  FHE_requestDecryption (fhe st)
    (flat_map (fun id => reading_handles (readings st id)) readingIds)
    decryptTwinUpdate_selector = Some (reqId, f) ->
  exists st',
    requestTwinUpdate st twinId readingIds = Ok (st', [TwinUpdateRequested twinId reqId]) /\
    requestToEntityId st' reqId = twinId /\
    requestToTag st' reqId = keccak256 "twin_update" /\
    fhe st' = f /\
    twinCount st' = twinCount st /\
    encryptedTwins st' = encryptedTwins st.
Proof.
  intros Hne Hmax Hlib. unfold requestTwinUpdate.
  rewrite requestTwinUpdate_ciphertexts_ok by done. unbind.
  destruct (register_accepted st _ _ twinId "twin_update" _ _ Hlib)
    as (st' & Hreg & Hent & Htag & Hfhe).
  rewrite Hreg. exists st'. do 4 (split; [done|]).
  by destruct (register_frame _ _ _ _ _ _ _ Hreg) as (_ & _ & _ & _ & ? & ? & _).
Qed.

Lemma requestTwinUpdate_rejected st twinId (readingIds : list uint256) :
  readingIds <> [] ->
  6 * Z.of_nat (length readingIds) <= MAX_UINT256 ->
  FHE_requestDecryption (fhe st)
    (flat_map (fun id => reading_handles (readings st id)) readingIds)
    decryptTwinUpdate_selector = None ->
  requestTwinUpdate st twinId readingIds = Revert RequestRejected.
Proof.
  intros Hne Hmax Hlib. unfold requestTwinUpdate.
  rewrite requestTwinUpdate_ciphertexts_ok by done. unbind.
  by rewrite (register_rejected _ _ _ twinId "twin_update" Hlib).
Qed.

Lemma submitEncryptedRecommendationRequest_ok now st (w n l : euint32) reqId f :
  0 <= recommendationCount st < MAX_UINT256 ->
  FHE_requestDecryption (fhe st) [FHE_toBytes32 w; FHE_toBytes32 n; FHE_toBytes32 l]
    decryptRecommendation_selector = Some (reqId, f) ->
  let recId := recommendationCount st + 1 in
  exists st',
    submitEncryptedRecommendationRequest now st w n l
      = Ok (st', [RecommendationRequested recId reqId]) /\
    requestToEntityId st' reqId = recId /\
    requestToTag st' reqId = keccak256 "recommendation" /\
    fhe st' = f.
Proof.
  intros Hroom Hlib recId. unfold submitEncryptedRecommendationRequest.
  rewrite add256_ok by lia. unbind. fold recId.
  match goal with
  | |- context [register ?s ?c ?sel ?e ?t] =>
      destruct (register_accepted s c sel e t reqId f Hlib)
        as (st' & Hreg & Hent & Htag & Hfhe)
  end.
  rewrite Hreg. by exists st'.
Qed.

Lemma requestAggregateDecryption_ok st (key : string) reqId f :
  FHE_isInitialized (encryptedMetricAggregates st key) = true ->
  FHE_requestDecryption (fhe st) [FHE_toBytes32 (encryptedMetricAggregates st key)]
    decryptAggregate_selector = Some (reqId, f) ->
  exists st',
    requestAggregateDecryption st key = Ok (st', []) /\
    requestToEntityId st' reqId = keccak256 key /\
    requestToTag st' reqId = keccak256 "aggregate" /\
    metricKeys st' = metricKeys st /\
    fhe st' = f.
Proof.
  intros Hinit Hlib. unfold requestAggregateDecryption.
  rewrite Hinit. simpl. unbind.
  destruct (register_accepted st _ _ (keccak256 key) "aggregate" _ _ Hlib)
    as (st' & Hreg & Hent & Htag & Hfhe).
  rewrite Hreg. exists st'. do 3 (split; [done|]). split; [|done].
  by destruct (register_frame _ _ _ _ _ _ _ Hreg) as (_ & _ & ? & _).
Qed.

Lemma findMetricKeyByHash_from_listed (keys : list string) (key : string) :
  key ∈ keys ->
  exists key',
    findMetricKeyByHash_from keys (keccak256 key) = Ok key' /\
    key' ∈ keys /\ keccak256 key' = keccak256 key.
Proof.
  induction keys as [|k keys IH]; intros Hin; [by apply elem_of_nil in Hin|].
  simpl. destruct (Z.eqb_spec (keccak256 k) (keccak256 key)) as [Heq|Hne].
  - exists k. split; [done|]. split; [left | done].
  - apply elem_of_cons in Hin as [->|Hin]; [done|].
    destruct (IH Hin) as (key' & ? & ? & ?). exists key'. split; [done|]. split; [by right|done].
Qed.

(** C1. Each request function that goes through (the library accepts the
    decryption request and hands out a request id) leaves in the
    correlator, at that request id, exactly the entity id and the tag it
    registered, and the callback that is then given this request id, with
    a proof the library accepts and a payload that decodes, goes through
    on that very entity: [decryptTwinUpdate] reveals the twin the request
    named, [decryptRecommendation] the recommendation, [decryptAggregate]
    reports a listed key with the registered hash.  The callbacks read the
    entity id only; the tag is stored and read back here from the
    mapping. *)
Theorem registered_pair_resolved :
  (forall st twinId readingIds reqId f,
     readingIds <> [] ->
     6 * Z.of_nat (length readingIds) <= MAX_UINT256 ->
     FHE_requestDecryption (fhe st)
       (flat_map (fun id => reading_handles (readings st id)) readingIds)
       decryptTwinUpdate_selector = Some (reqId, f) ->
     exists st',
       requestTwinUpdate st twinId readingIds
         = Ok (st', [TwinUpdateRequested twinId reqId]) /\
       (requestToEntityId st' reqId, requestToTag st' reqId)
         = (twinId, keccak256 "twin_update") /\
       forall now cleartexts proof parts score,
         twinId <> 0 ->
         FHE_checkSignatures (fhe st') reqId cleartexts proof = true ->
         abi_decode_strings cleartexts = Some parts ->
         match parts !! 1%nat with Some s => parseUint32 s | None => Ok 0 end = Ok score ->
         EncryptedTwin.id (encryptedTwins st twinId) <> 0 \/
           0 <= twinCount st < MAX_UINT256 ->
         exists st'',
           decryptTwinUpdate now st' reqId cleartexts proof
             = Ok (st'', [TwinDecrypted twinId]) /\
           decryptedTwins st'' twinId
             = DecryptedTwin.mk (default "" (parts !! 0%nat)) score true) /\
  (forall now st w n l reqId f,
     0 <= recommendationCount st < MAX_UINT256 ->
     FHE_requestDecryption (fhe st) [FHE_toBytes32 w; FHE_toBytes32 n; FHE_toBytes32 l]
       decryptRecommendation_selector = Some (reqId, f) ->
     exists st',
       submitEncryptedRecommendationRequest now st w n l
         = Ok (st', [RecommendationRequested (recommendationCount st + 1) reqId]) /\
       (requestToEntityId st' reqId, requestToTag st' reqId)
         = (recommendationCount st + 1, keccak256 "recommendation") /\
       forall cleartexts proof items,
         FHE_checkSignatures (fhe st') reqId cleartexts proof = true ->
         abi_decode_strings cleartexts = Some items ->
         exists st'',
           decryptRecommendation st' reqId cleartexts proof
             = Ok (st'', [RecommendationDecrypted (recommendationCount st + 1)]) /\
           decryptedRecommendations st'' (recommendationCount st + 1)
             = DecryptedRecommendation.mk (default "" (items !! 0%nat))
                 (default "" (items !! 1%nat)) (default "" (items !! 2%nat)) true) /\
  (forall st key reqId f,
     FHE_isInitialized (encryptedMetricAggregates st key) = true ->
     key ∈ metricKeys st ->
     FHE_requestDecryption (fhe st) [FHE_toBytes32 (encryptedMetricAggregates st key)]
       decryptAggregate_selector = Some (reqId, f) ->
     exists st',
       requestAggregateDecryption st key = Ok (st', []) /\
       (requestToEntityId st' reqId, requestToTag st' reqId)
         = (keccak256 key, keccak256 "aggregate") /\
       forall cleartexts proof value,
         FHE_checkSignatures (fhe st') reqId cleartexts proof = true ->
         abi_decode_uint32 cleartexts = Some value ->
         exists key',
           key' ∈ metricKeys st /\
           keccak256 key' = keccak256 key /\
           decryptAggregate st' reqId cleartexts proof
             = Ok (st', [PlainAggregateResult key' value])).
Proof.
  split; [|split].
  - intros st twinId readingIds reqId f Hne Hmax Hlib.
    destruct (requestTwinUpdate_ok st twinId readingIds reqId f Hne Hmax Hlib)
      as (st' & Hrun & Hent & Htag & _ & Hcount & Htwins).
    exists st'. split; [exact Hrun|]. split; [by rewrite Hent, Htag|].
    intros now cleartexts proof parts score Htwin Hsig Hdec Hscore Hroom.
    destruct (decryptTwinUpdate_ok now st' reqId cleartexts proof parts score)
      as (st'' & Hcb & Hview & _); rewrite ?Hent, ?Hcount, ?Htwins; try done.
    exists st''. by rewrite Hent in Hcb, Hview.
  - intros now st w n l reqId f Hroom Hlib.
    destruct (submitEncryptedRecommendationRequest_ok now st w n l reqId f Hroom Hlib)
      as (st' & Hrun & Hent & Htag & _).
    exists st'. split; [exact Hrun|]. split; [by rewrite Hent, Htag|].
    intros cleartexts proof items Hsig Hdec.
    destruct (decryptRecommendation_ok st' reqId cleartexts proof items)
      as (st'' & Hcb & Hview & _); rewrite ?Hent; try done; [lia|].
    exists st''. by rewrite Hent in Hcb, Hview.
  - intros st key reqId f Hinit Hin Hlib.
    destruct (requestAggregateDecryption_ok st key reqId f Hinit Hlib)
      as (st' & Hrun & Hent & Htag & Hkeys & _).
    exists st'. split; [exact Hrun|]. split; [by rewrite Hent, Htag|].
    intros cleartexts proof value Hsig Hval.
    destruct (findMetricKeyByHash_from_listed _ _ Hin) as (key' & Hfound & Hin' & Hhash).
    exists key'. do 2 (split; [done|]).
    apply decryptAggregate_ok; [done| |done].
    unfold findMetricKeyByHash. by rewrite Hent, Hkeys.
Qed.

(** ** What each call leaves alone *)

Ltac crunch H :=
  repeat match type of H with
  | context [register ?s ?c ?sel ?e ?t] =>
      let Hreg := fresh "Hreg" in
      destruct (register s c sel e t) as [[? ?]|] eqn:Hreg;
      [apply register_frame in Hreg; simpl in Hreg, H | discriminate H]
  | context [match ?x with _ => _ end] => destruct x eqn:?; try discriminate H
  | context [if ?x then _ else _] => destruct x eqn:?; try discriminate H
  end;
  try (injection H as <- <-).

Lemma decryptTwinUpdate_frame now st requestId cleartexts proof st' evs :
  decryptTwinUpdate now st requestId cleartexts proof = Ok (st', evs) ->
  readingCount st' = readingCount st /\
  readings st' = readings st /\
  metricKeys st' = metricKeys st /\
  encryptedMetricAggregates st' = encryptedMetricAggregates st.
Proof.
  unfold decryptTwinUpdate. unbind.
  destruct (require _ _); [|discriminate].
  destruct (checkSignatures _ _ _ _); [|discriminate].
  destruct (decode_strings _) as [parts|]; [|discriminate].
  destruct (match parts !! 1%nat with Some s => parseUint32 s | None => Ok 0 end);
    [|discriminate].
  simpl.
  match goal with |- context [if ?c then _ else _] => destruct c end.
  - destruct (add256 _ _); [|discriminate]. by intros [= <- <-].
  - by intros [= <- <-].
Qed.

Lemma decryptRecommendation_frame st requestId cleartexts proof st' evs :
  decryptRecommendation st requestId cleartexts proof = Ok (st', evs) ->
  readingCount st' = readingCount st /\
  readings st' = readings st /\
  metricKeys st' = metricKeys st /\
  encryptedMetricAggregates st' = encryptedMetricAggregates st.
Proof.
  unfold decryptRecommendation. unbind.
  destruct (require _ _); [|discriminate].
  destruct (checkSignatures _ _ _ _); [|discriminate].
  destruct (decode_strings _) as [items|]; [|discriminate].
  by intros [= <- <-].
Qed.

(** Only [submitEncryptedReading] writes a reading or moves the reading
    counter. *)
Lemma exec_readings st (c : Call) st' evs :
  exec st c = Ok (st', evs) ->
  match c with
  | call_submitEncryptedReading now ts temp hum co2 light soil =>
      let rid := readingCount st + 1 in
      0 <= rid <= MAX_UINT256 /\
      readingCount st' = rid /\
      readings st' =
        <[rid := EncryptedReading.mk rid ts temp hum co2 light soil]> (readings st)
  | _ => readingCount st' = readingCount st /\ readings st' = readings st
  end.
Proof.
  intros Hexec. destruct c; simpl in Hexec.
  - unfold submitEncryptedReading in Hexec. unbind.
    destruct (add256 _ _) as [rid|] eqn:Hrid; [|discriminate].
    apply checked_inv in Hrid as [-> Hrange]. injection Hexec as <- <-.
    simpl. split; [lia | done].
  - unfold requestTwinUpdate in Hexec. unbind. crunch Hexec; simpl; intuition congruence.
  - apply decryptTwinUpdate_frame in Hexec. intuition congruence.
  - unfold submitEncryptedRecommendationRequest in Hexec. unbind. crunch Hexec; simpl; intuition congruence.
  - apply decryptRecommendation_frame in Hexec. intuition congruence.
  - unfold addEncryptedAggregate in Hexec. crunch Hexec; simpl; intuition congruence.
  - unfold requestAggregateDecryption, require in Hexec. unbind. crunch Hexec; simpl; intuition congruence.
  - by destruct (decryptAggregate_inv _ _ _ _ _ _ Hexec) as (-> & _).
Qed.

(** Only [addEncryptedAggregate] writes an accumulator or the key list. *)
Lemma exec_aggregates st (c : Call) st' evs :
  exec st c = Ok (st', evs) ->
  match c with
  | call_addEncryptedAggregate key encryptedDelta => True
  | _ => metricKeys st' = metricKeys st /\
         encryptedMetricAggregates st' = encryptedMetricAggregates st
  end.
Proof.
  intros Hexec. destruct c; simpl in Hexec; [| | | | |done| |].
  - unfold submitEncryptedReading in Hexec. unbind. crunch Hexec; simpl; intuition congruence.
  - unfold requestTwinUpdate in Hexec. unbind. crunch Hexec; simpl; intuition congruence.
  - apply decryptTwinUpdate_frame in Hexec. intuition congruence.
  - unfold submitEncryptedRecommendationRequest in Hexec. unbind. crunch Hexec; simpl; intuition congruence.
  - apply decryptRecommendation_frame in Hexec. intuition congruence.
  - unfold requestAggregateDecryption, require in Hexec. unbind. crunch Hexec; simpl; intuition congruence.
  - by destruct (decryptAggregate_inv _ _ _ _ _ _ Hexec) as (-> & _).
Qed.

Lemma run_snoc st (calls : list Call) (c : Call) :
  run st (calls ++ [c]) = step (run st calls) c.
Proof. unfold run. by rewrite fold_left_app. Qed.

(** A call leaves the correlator alone or puts one entry into it: no call
    takes an entry out. *)
Lemma exec_correlator st (c : Call) st' evs :
  exec st c = Ok (st', evs) ->
  (requestToEntityId st' = requestToEntityId st /\ requestToTag st' = requestToTag st) \/
  (exists reqId entityId tag,
     requestToEntityId st' = <[reqId := entityId]> (requestToEntityId st) /\
     requestToTag st' = <[reqId := keccak256 tag]> (requestToTag st)).
Proof.
  intros Hexec. destruct c; simpl in Hexec.
  - left. unfold submitEncryptedReading in Hexec. unbind.
    destruct (add256 _ _); [|discriminate]. by injection Hexec as <- <-.
  - right. unfold requestTwinUpdate in Hexec. unbind.
    destruct (requestTwinUpdate_ciphertexts _ _) as [ciphertexts|]; [|discriminate].
    destruct (register _ _ _ _ _) as [[reqId st1]|] eqn:Hreg; [|discriminate].
    apply register_inv in Hreg as (_ & Hent & Htag). injection Hexec as <- <-.
    eauto.
  - left. by destruct (decryptTwinUpdate_inv _ _ _ _ _ _ _ Hexec)
      as (_ & _ & _ & ? & ? & _ & _ & _ & _ & ? & ? & _).
  - right. unfold submitEncryptedRecommendationRequest in Hexec. unbind.
    destruct (add256 _ _) as [rid|]; [|discriminate].
    match type of Hexec with
    | context [register ?s ?c ?sel ?e ?t] =>
        destruct (register s c sel e t) as [[reqId st1]|] eqn:Hreg; [|discriminate]
    end.
    apply register_inv in Hreg as (_ & Hent & Htag). injection Hexec as <- <-. eauto.
  - left. by destruct (decryptRecommendation_inv _ _ _ _ _ _ Hexec)
      as (_ & _ & _ & ? & _ & _ & ? & ? & _).
  - left. unfold addEncryptedAggregate in Hexec.
    destruct (negb _); by injection Hexec as <- <-.
  - right. unfold requestAggregateDecryption in Hexec. unbind.
    destruct (require _ _); [|discriminate].
    match type of Hexec with
    | context [register ?s ?c ?sel ?e ?t] =>
        destruct (register s c sel e t) as [[reqId st1]|] eqn:Hreg; [|discriminate]
    end.
    apply register_inv in Hreg as (_ & Hent & Htag). injection Hexec as <- <-. eauto.
  - left. by destruct (decryptAggregate_inv _ _ _ _ _ _ Hexec) as (-> & _).
Qed.

(** ** Entries are never consumed *)

(** C4. A callback that succeeded leaves both correlator mappings as they
    were, so the entry it resolved is still there, and the same call made
    again, at any later time, succeeds again with the same event.  More
    generally no transaction takes an entry out of the correlator: it
    leaves both mappings alone or writes one entry into them. *)
Theorem resolved_entry_stays :
  (forall now st requestId cleartexts proof st' evs,
     decryptTwinUpdate now st requestId cleartexts proof = Ok (st', evs) ->
     requestToEntityId st' = requestToEntityId st /\
     requestToTag st' = requestToTag st /\
     forall now', exists st'',
       decryptTwinUpdate now' st' requestId cleartexts proof = Ok (st'', evs)) /\
  (forall st requestId cleartexts proof st' evs,
     decryptRecommendation st requestId cleartexts proof = Ok (st', evs) ->
     requestToEntityId st' = requestToEntityId st /\
     requestToTag st' = requestToTag st /\
     exists st'',
       decryptRecommendation st' requestId cleartexts proof = Ok (st'', evs)) /\
  (forall st requestId cleartexts proof st' evs,
     decryptAggregate st requestId cleartexts proof = Ok (st', evs) ->
     requestToEntityId st' = requestToEntityId st /\
     requestToTag st' = requestToTag st /\
     decryptAggregate st' requestId cleartexts proof = Ok (st', evs)) /\
  (forall st (c : Call),
     (requestToEntityId (step st c) = requestToEntityId st /\
      requestToTag (step st c) = requestToTag st) \/
     (exists reqId entityId tag,
        requestToEntityId (step st c) = <[reqId := entityId]> (requestToEntityId st) /\
        requestToTag (step st c) = <[reqId := keccak256 tag]> (requestToTag st))).
Proof.
  split; [|split; [|split]]; cycle 2.
  { intros st requestId cleartexts proof st' evs Hrun.
    destruct (decryptAggregate_inv _ _ _ _ _ _ Hrun) as (-> & _). done. }
  { intros st c. unfold step.
    destruct (exec st c) as [[st' evs]|] eqn:Hexec; [|by left].
    by apply exec_correlator in Hexec. }
  - intros now st requestId cleartexts proof st' evs Hrun.
    destruct (decryptTwinUpdate_inv _ _ _ _ _ _ _ Hrun)
      as (Hreg & Hsig & -> & parts & score & Hdec & Hscore & _ & Hid & Hent & Htag & Hfhe).
    do 2 (split; [done|]). intros now'.
    destruct (decryptTwinUpdate_ok now' st' requestId cleartexts proof parts score)
      as (st'' & Hagain & _); rewrite ?Hent, ?Hfhe; auto.
    exists st''. by rewrite Hent in Hagain.
  - intros st requestId cleartexts proof st' evs Hrun.
    destruct (decryptRecommendation_inv _ _ _ _ _ _ Hrun)
      as (Hreg & Hsig & -> & items & Hdec & _ & Hent & Htag & Hfhe).
    do 2 (split; [done|]).
    destruct (decryptRecommendation_ok st' requestId cleartexts proof items)
      as (st'' & Hagain & _); rewrite ?Hent, ?Hfhe; auto.
    exists st''. by rewrite Hent in Hagain.
Qed.

(** ** Readings live at [1 .. readingCount] *)

Lemma initial_readings_wf f : readings_wf (initial f).
Proof. split; simpl; [lia | done]. Qed.

Lemma step_readings_wf st (c : Call) : readings_wf st -> readings_wf (step st c).
Proof.
  intros [Hcount Hzero]. unfold step.
  destruct (exec st c) as [[st' evs]|] eqn:Hexec; [|by split].
  apply exec_readings in Hexec. unfold readings_wf.
  destruct c; try (destruct Hexec as [-> ->]; by split).
  simpl in Hexec. destruct Hexec as (Hrange & -> & ->). split; [lia|].
  intros id Hid. rewrite fn_lookup_insert_ne by lia. apply Hzero. lia.
Qed.

Lemma run_readings_wf f (calls : list Call) : readings_wf (run (initial f) calls).
Proof.
  induction calls as [|c calls IH] using rev_ind.
  - apply initial_readings_wf.
  - rewrite run_snoc. by apply step_readings_wf.
Qed.

Lemma zero_reading_handles :
  reading_handles EncryptedReading.zero = replicate 6 (FHE_toBytes32 0).
Proof. reflexivity. Qed.

(** C10, as the code has it.  [requestTwinUpdate] itself does not look
    at whether a reading id was ever submitted.  In every storage the
    contract can reach, for a non-empty batch whatever its ids, the array
    it builds is the six handles of each id's slot in turn, and the slot
    of an id that is zero or above [readingCount] holds six zero handles:
    a batch of such ids gives an array of nothing but zero handles.  The
    array is handed to [FHE.requestDecryption], and what the call does is
    what the library does with it: if the library hands out a request id
    the call goes through and announces it, if the library reverts so
    does the call. *)
Theorem unsubmitted_readings_reach_the_library f (calls : list Call) twinId
    (readingIds : list uint256) :
  let st := run (initial f) calls in
  let ciphertexts := flat_map (fun id => reading_handles (readings st id)) readingIds in
  readingIds <> [] ->
  6 * Z.of_nat (length readingIds) <= MAX_UINT256 ->
  requestTwinUpdate_ciphertexts st readingIds = Ok ciphertexts /\
  (forall id, id <= 0 \/ readingCount st < id ->
     readings st id = EncryptedReading.zero /\
     reading_handles (readings st id) = replicate 6 (FHE_toBytes32 0)) /\
  (Forall (fun id => id <= 0 \/ readingCount st < id) readingIds ->
     Forall (fun c => c = FHE_toBytes32 0) ciphertexts) /\
  (forall reqId f',
     FHE_requestDecryption (fhe st) ciphertexts decryptTwinUpdate_selector
       = Some (reqId, f') ->
     exists st',
       requestTwinUpdate st twinId readingIds
         = Ok (st', [TwinUpdateRequested twinId reqId])) /\
  (FHE_requestDecryption (fhe st) ciphertexts decryptTwinUpdate_selector = None ->
   requestTwinUpdate st twinId readingIds = Revert RequestRejected).
Proof.
  intros st ciphertexts Hne Hmax.
  pose proof (run_readings_wf f calls) as [_ Hzero]. fold st in Hzero.
  split; [|split; [|split; [|split]]].
  - by apply requestTwinUpdate_ciphertexts_ok.
  - intros id Hid. rewrite (Hzero id Hid). split; [done | apply zero_reading_handles].
  - intros Hall. unfold ciphertexts. clear -Hall Hzero.
    induction Hall as [|id ids Hid _ IH]; simpl; [constructor|].
    rewrite (Hzero id Hid). simpl. repeat constructor. exact IH.
  - intros reqId f' Hlib.
    destruct (requestTwinUpdate_ok st twinId readingIds reqId f' Hne Hmax Hlib)
      as (st' & Hrun & _).
    by exists st'.
  - by apply requestTwinUpdate_rejected.
Qed.

(** ** The aggregate registry *)


Lemma addEncryptedAggregate_fresh st (key : string) (encryptedDelta : euint32) :
  FHE_isInitialized (encryptedMetricAggregates st key) = false ->
  exists st',
    addEncryptedAggregate st key encryptedDelta = Ok (st', []) /\
    metricKeys st' = metricKeys st ++ [key] /\
    encryptedMetricAggregates st' =
      <[key := FHE_add (FHE_asEuint32 0) encryptedDelta]>
        (<[key := FHE_asEuint32 0]> (encryptedMetricAggregates st)).
Proof.
  intros Hinit. unfold addEncryptedAggregate. rewrite Hinit. simpl.
  eexists. split; [reflexivity|]. simpl. by rewrite fn_lookup_insert.
Qed.

Lemma addEncryptedAggregate_known st (key : string) (encryptedDelta : euint32) :
  FHE_isInitialized (encryptedMetricAggregates st key) = true ->
  exists st',
    addEncryptedAggregate st key encryptedDelta = Ok (st', []) /\
    metricKeys st' = metricKeys st /\
    encryptedMetricAggregates st' =
      <[key := FHE_add (encryptedMetricAggregates st key) encryptedDelta]>
        (encryptedMetricAggregates st).
Proof.
  intros Hinit. unfold addEncryptedAggregate. rewrite Hinit. simpl.
  eexists. split; [reflexivity|]. done.
Qed.


Section KeyList.

(** What the registry relies on from the library: the zero handle, which
    is what a slot never written reads as, is not initialized, and the
    handle of a homomorphic sum is. *)
Hypothesis zero_uninitialized : FHE_isInitialized 0 = false.
Hypothesis sum_initialized : forall a b, FHE_isInitialized (FHE_add a b) = true.

Lemma initial_keys_wf f : keys_wf (initial f).
Proof.
  split; simpl; [constructor|].
  intros k. rewrite zero_uninitialized. split; [|done].
  intros Hin. by apply elem_of_nil in Hin.
Qed.

Lemma addEncryptedAggregate_keys_wf st (key : string) (encryptedDelta : euint32) st' evs :
  keys_wf st ->
  addEncryptedAggregate st key encryptedDelta = Ok (st', evs) ->
  keys_wf st' /\ key ∈ metricKeys st'.
Proof.
  intros [Hnd Hiff] Hexec.
  destruct (FHE_isInitialized (encryptedMetricAggregates st key)) eqn:Hinit.
  - destruct (addEncryptedAggregate_known st key encryptedDelta Hinit)
      as (st1 & Hrun & Hkeys & Hagg).
    rewrite Hrun in Hexec. injection Hexec as <- _.
    unfold keys_wf. rewrite Hkeys, Hagg.
    assert (Hin : key ∈ metricKeys st) by by apply Hiff.
    split; [|done]. split; [done|].
    intros k. destruct (decide (key = k)) as [<-|Hne].
    + rewrite fn_lookup_insert, sum_initialized. done.
    + rewrite fn_lookup_insert_ne by done. apply Hiff.
  - destruct (addEncryptedAggregate_fresh st key encryptedDelta Hinit)
      as (st1 & Hrun & Hkeys & Hagg).
    rewrite Hrun in Hexec. injection Hexec as <- _.
    unfold keys_wf. rewrite Hkeys, Hagg.
    assert (Hout : key ∉ metricKeys st).
    { intros Hin. apply Hiff in Hin. congruence. }
    split; [|apply elem_of_app; right; left].
    split.
    + apply list.NoDup_app. split; [done|]. split; [|apply NoDup_singleton].
      intros k Hin Hk. apply list_elem_of_singleton in Hk as ->. contradiction.
    + intros k. rewrite elem_of_app, list_elem_of_singleton.
      destruct (decide (key = k)) as [<-|Hne].
      * rewrite fn_lookup_insert, sum_initialized. split; [done | by right].
      * rewrite !fn_lookup_insert_ne by done. rewrite Hiff.
        split; [intros [?|?]; [done | congruence] | by left].
Qed.

Lemma step_keys_wf st (c : Call) : keys_wf st -> keys_wf (step st c).
Proof.
  intros Hwf. unfold step.
  destruct (exec st c) as [[st' evs]|] eqn:Hexec; [|done].
  pose proof (exec_aggregates _ _ _ _ Hexec) as Hframe.
  destruct c;
    try (match type of Hframe with
         | _ /\ _ => destruct Hframe as [Hkeys Hagg]; unfold keys_wf;
                     rewrite Hkeys, Hagg; exact Hwf
         end).
  simpl in Hexec. by destruct (addEncryptedAggregate_keys_wf _ _ _ _ _ Hwf Hexec).
Qed.

Lemma run_keys_wf f (calls : list Call) : keys_wf (run (initial f) calls).
Proof.
  induction calls as [|c calls IH] using rev_ind.
  - apply initial_keys_wf.
  - rewrite run_snoc. by apply step_keys_wf.
Qed.



End KeyList.

End Properties.

(** * The contract at work

    The statements above, run on the test double. *)

Example parseUint32_85 : parseUint32 "85" = Ok 85.
Proof. reflexivity. Qed.

Example parseUint32_stops_at_non_digit : parseUint32 "12a7" = Ok 12.
Proof. reflexivity. Qed.

Example parseUint32_no_digit : parseUint32 "n/a" = Ok 0.
Proof. reflexivity. Qed.

Example parseUint32_largest : parseUint32 "4294967295" = Ok 4294967295.
Proof. reflexivity. Qed.

Example parseUint32_overflow : parseUint32 "4294967296" = Revert (Panic 17).
Proof. reflexivity. Qed.

Example farm_correlator :
  map (fun requestId => requestToEntityId TestDouble.farm requestId) [1; 2; 3; 4]
    = [7; 1; TestDouble.hash "total_water"; 0].
Proof. reflexivity. Qed.

Example farm_metricKeys : metricKeys TestDouble.farm = ["total_water"].
Proof. reflexivity. Qed.

Example farm_total_water :
  TestDouble.plain (getEncryptedMetric TestDouble.farm "total_water") = 12.
Proof. reflexivity. Qed.

Lemma TestDouble_sum_initialized (a b : euint32) :
  FHE_isInitialized (External := TestDouble.external)
    (FHE_add (External := TestDouble.external) a b) = true.
Proof.
  simpl. unfold TestDouble.wrap.
  pose proof (Z.mod_pos_bound (TestDouble.plain a + TestDouble.plain b) (2 ^ 32)).
  destruct (Z.eqb_spec (2 ^ 32 + (TestDouble.plain a + TestDouble.plain b) mod 2 ^ 32) 0);
    [lia | done].
Qed.

(** ** Registration and resolution *)

Lemma registered_pair_resolved_farm :
  (exists st' st'',
     requestTwinUpdate (E := TestDouble.external) TestDouble.farm 7 [1; 2; 3]
       = Ok (st', [TwinUpdateRequested 7 4]) /\
     (requestToEntityId st' 4, requestToTag st' 4) = (7, TestDouble.hash "twin_update") /\
     decryptTwinUpdate 200 st' 4 TestDouble.twin_payload (4 :: TestDouble.twin_payload)
       = Ok (st'', [TwinDecrypted 7]) /\
     decryptedTwins st'' 7 = DecryptedTwin.mk "Healthy,85% moisture" 85 true) /\
  (exists st' st'',
     submitEncryptedRecommendationRequest (E := TestDouble.external) 140 TestDouble.farm
       (TestDouble.wrap 4) (TestDouble.wrap 5) (TestDouble.wrap 6)
       = Ok (st', [RecommendationRequested 2 4]) /\
     (requestToEntityId st' 4, requestToTag st' 4) = (2, TestDouble.hash "recommendation") /\
     decryptRecommendation st' 4 TestDouble.advice_payload (4 :: TestDouble.advice_payload)
       = Ok (st'', [RecommendationDecrypted 2]) /\
     decryptedRecommendations st'' 2
       = DecryptedRecommendation.mk "daily" "low N" "+10%" true) /\
  (exists st' key',
     requestAggregateDecryption (E := TestDouble.external) TestDouble.farm "total_water"
       = Ok (st', []) /\
     (requestToEntityId st' 4, requestToTag st' 4)
       = (TestDouble.hash "total_water", TestDouble.hash "aggregate") /\
     key' ∈ metricKeys TestDouble.farm /\
     TestDouble.hash key' = TestDouble.hash "total_water" /\
     decryptAggregate st' 4 [12] [4; 12] = Ok (st', [PlainAggregateResult key' 12])).
Proof.
  destruct (registered_pair_resolved (E := TestDouble.external)) as (Htwin & Hrec & Hagg).
  split; [|split].
  - destruct (Htwin TestDouble.farm 7 [1; 2; 3] 4 4) as (st' & Hrun & Hpair & Hcb).
    + discriminate.
    + vm_compute. discriminate.
    + reflexivity.
    + destruct (Hcb 200 TestDouble.twin_payload (4 :: TestDouble.twin_payload)
                  ["Healthy,85% moisture"; "85"] 85) as (st'' & Hok & Hview).
      * discriminate.
      * reflexivity.
      * reflexivity.
      * reflexivity.
      * right. vm_compute. split; [discriminate | reflexivity].
      * exists st', st''. split; [exact Hrun|]. split; [exact Hpair|].
        split; [exact Hok | exact Hview].
  - destruct (Hrec 140 TestDouble.farm (TestDouble.wrap 4) (TestDouble.wrap 5)
                (TestDouble.wrap 6) 4 4) as (st' & Hrun & Hpair & Hcb).
    + vm_compute. split; [discriminate | reflexivity].
    + reflexivity.
    + destruct (Hcb TestDouble.advice_payload (4 :: TestDouble.advice_payload)
                  ["daily"; "low N"; "+10%"]) as (st'' & Hok & Hview).
      * reflexivity.
      * reflexivity.
      * exists st', st''. split; [exact Hrun|]. split; [exact Hpair|].
        split; [exact Hok | exact Hview].
  - destruct (Hagg TestDouble.farm "total_water" 4 4) as (st' & Hrun & Hpair & Hcb).
    + reflexivity.
    + apply list_elem_of_In. vm_compute. tauto.
    + reflexivity.
    + destruct (Hcb [12] [4; 12] 12) as (key' & Hin & Hhash & Hok).
      * reflexivity.
      * reflexivity.
      * exists st', key'. split; [exact Hrun|]. split; [exact Hpair|].
        split; [exact Hin|]. split; [exact Hhash | exact Hok].
Defined.

(** ** Unknown request ids *)

Lemma unknown_request_rejected_farm :
  decryptTwinUpdate (E := TestDouble.external) 200 TestDouble.farm 9 [12] [9; 12]
    = Revert (Error "Invalid request id") /\
  decryptRecommendation (E := TestDouble.external) TestDouble.farm 9 [12] [9; 12]
    = Revert (Error "Invalid request") /\
  decryptAggregate (E := TestDouble.external) TestDouble.farm 9 [12] [9; 12]
    = Revert (Error "Metric key not found") /\
  step TestDouble.farm (call_decryptTwinUpdate 200 9 [12] [9; 12]) = TestDouble.farm /\
  step TestDouble.farm (call_decryptRecommendation 9 [12] [9; 12]) = TestDouble.farm /\
  step TestDouble.farm (call_decryptAggregate 9 [12] [9; 12]) = TestDouble.farm.
Proof.
  destruct (unknown_request_rejected (E := TestDouble.external) 200 TestDouble.farm 9
              [12] [9; 12]) as (Htwin & Hrec & _ & Hagg & Hsame).
  - reflexivity.
  - repeat constructor. vm_compute. discriminate.
  - split; [exact Htwin|]. split; [exact Hrec|]. split; [|exact Hsame].
    apply Hagg. reflexivity.
Defined.

(** ** The order of the checks *)

(** On a request id the correlator does not know, with a proof the library
    rejects, [decryptTwinUpdate] fails at the correlator and
    [decryptAggregate] at the proof: the aggregate callback has looked at
    the proof before it looks the request up. *)
Lemma decryptAggregate_verifies_before_resolving :
  requestToEntityId TestDouble.farm 9 = 0 /\
  FHE_checkSignatures (External := TestDouble.external) (fhe TestDouble.farm) 9 [12] []
    = false /\
  decryptTwinUpdate (E := TestDouble.external) 200 TestDouble.farm 9 [12] []
    = Revert (Error "Invalid request id") /\
  decryptAggregate (E := TestDouble.external) TestDouble.farm 9 [12] []
    = Revert InvalidSignatures /\
  ~ every_callback_resolves_first (E := TestDouble.external).
Proof.
  assert (Hrun : decryptAggregate (E := TestDouble.external) TestDouble.farm 9 [12] []
                 = Revert InvalidSignatures) by reflexivity.
  do 3 (split; [reflexivity|]). split; [exact Hrun|].
  intros (_ & _ & Hagg).
  destruct (Hagg TestDouble.farm 9 [12] [] eq_refl) as [msg Hmsg].
  rewrite Hrun in Hmsg. discriminate Hmsg.
Qed.

Lemma callbacks_check_before_acting_farm :
  (exists msg,
     decryptTwinUpdate (E := TestDouble.external) 200 TestDouble.farm 9 [12] []
       = Revert (Error msg)) /\
  (exists msg,
     decryptRecommendation (E := TestDouble.external) TestDouble.farm 9 [12] []
       = Revert (Error msg)) /\
  decryptAggregate (E := TestDouble.external) TestDouble.farm 9 [12] []
    = Revert InvalidSignatures /\
  (exists r,
     decryptTwinUpdate (E := TestDouble.external) 200 TestDouble.farm 1
       TestDouble.twin_payload [] = Revert r) /\
  (exists r,
     decryptRecommendation (E := TestDouble.external) TestDouble.farm 2
       TestDouble.advice_payload [] = Revert r) /\
  (exists r,
     decryptAggregate (E := TestDouble.external) TestDouble.farm 3 [12] [] = Revert r) /\
  (decryptTwinUpdate (E := TestDouble.external) 200 TestDouble.farm 1
     TestDouble.twin_payload [] = Revert InvalidSignatures /\
   decryptRecommendation (E := TestDouble.external) TestDouble.farm 1
     TestDouble.twin_payload [] = Revert InvalidSignatures) /\
  FHE_checkSignatures (External := TestDouble.external) (fhe TestDouble.farm) 1
    TestDouble.twin_payload (1 :: TestDouble.twin_payload) = true /\
  FHE_checkSignatures (External := TestDouble.external) (fhe TestDouble.farm) 2
    TestDouble.advice_payload (2 :: TestDouble.advice_payload) = true /\
  FHE_checkSignatures (External := TestDouble.external) (fhe TestDouble.farm) 3
    [12] [3; 12] = true.
Proof.
  destruct (callbacks_check_before_acting (E := TestDouble.external))
    as (Htwin & Hrec & Hagg & Htwin' & Hrec' & Hagg' & Hthen & Htwin_ok & Hrec_ok & Hagg_ok).
  split; [apply Htwin; reflexivity|].
  split; [apply Hrec; reflexivity|].
  split; [apply Hagg; reflexivity|].
  split; [apply Htwin'; reflexivity|].
  split; [apply Hrec'; reflexivity|].
  split; [apply Hagg'; reflexivity|].
  split.
  { apply (Hthen 200 TestDouble.farm 1 TestDouble.twin_payload []).
    - vm_compute. discriminate.
    - reflexivity. }
  split.
  { apply (Htwin_ok 200 TestDouble.farm 1 TestDouble.twin_payload
             (1 :: TestDouble.twin_payload) TestDouble.farm_revealed [TwinDecrypted 7]).
    reflexivity. }
  split.
  { apply (Hrec_ok TestDouble.farm 2 TestDouble.advice_payload
             (2 :: TestDouble.advice_payload) TestDouble.farm_advised
             [RecommendationDecrypted 1]).
    reflexivity. }
  apply (Hagg_ok TestDouble.farm 3 [12] [3; 12] TestDouble.farm
           [PlainAggregateResult "total_water" 12]).
  reflexivity.
Defined.

(** ** Calling back twice *)

Lemma resolved_entry_stays_farm :
  (requestToEntityId TestDouble.farm_revealed = requestToEntityId TestDouble.farm /\
   requestToTag TestDouble.farm_revealed = requestToTag TestDouble.farm /\
   forall now', exists st'',
     decryptTwinUpdate (E := TestDouble.external) now' TestDouble.farm_revealed 1
       TestDouble.twin_payload (1 :: TestDouble.twin_payload)
       = Ok (st'', [TwinDecrypted 7])) /\
  (requestToEntityId TestDouble.farm_advised = requestToEntityId TestDouble.farm /\
   requestToTag TestDouble.farm_advised = requestToTag TestDouble.farm /\
   exists st'',
     decryptRecommendation (E := TestDouble.external) TestDouble.farm_advised 2
       TestDouble.advice_payload (2 :: TestDouble.advice_payload)
       = Ok (st'', [RecommendationDecrypted 1])) /\
  decryptAggregate (E := TestDouble.external) TestDouble.farm 3 [12] [3; 12]
    = Ok (TestDouble.farm, [PlainAggregateResult "total_water" 12]).
Proof.
  destruct (resolved_entry_stays (E := TestDouble.external)) as (Htwin & Hrec & Hagg & _).
  split; [|split].
  - apply (Htwin 200 TestDouble.farm 1 TestDouble.twin_payload
             (1 :: TestDouble.twin_payload)).
    reflexivity.
  - apply (Hrec TestDouble.farm 2 TestDouble.advice_payload
             (2 :: TestDouble.advice_payload)).
    reflexivity.
  - apply (Hagg TestDouble.farm 3 [12] [3; 12] TestDouble.farm
             [PlainAggregateResult "total_water" 12]).
    reflexivity.
Defined.

(** ** Short payloads *)

Lemma short_payload_filled_with_defaults_farm :
  (exists st',
     decryptTwinUpdate (E := TestDouble.external) 200 TestDouble.farm 1
       TestDouble.short_payload (1 :: TestDouble.short_payload)
       = Ok (st', [TwinDecrypted 7]) /\
     decryptedTwins st' 7 = DecryptedTwin.mk "Dry" 0 true) /\
  (exists st',
     decryptRecommendation (E := TestDouble.external) TestDouble.farm 2
       TestDouble.short_payload (2 :: TestDouble.short_payload)
       = Ok (st', [RecommendationDecrypted 1]) /\
     decryptedRecommendations st' 1 = DecryptedRecommendation.mk "Dry" "" "" true).
Proof.
  split.
  - apply (proj1 (short_payload_filled_with_defaults (E := TestDouble.external) 200
             TestDouble.farm 1 TestDouble.short_payload (1 :: TestDouble.short_payload)
             ["Dry"] ltac:(vm_compute; discriminate) eq_refl eq_refl)).
    + simpl. lia.
    + right. vm_compute. split; [discriminate | reflexivity].
  - apply (proj2 (short_payload_filled_with_defaults (E := TestDouble.external) 200
             TestDouble.farm 2 TestDouble.short_payload (2 :: TestDouble.short_payload)
             ["Dry"] ltac:(vm_compute; discriminate) eq_refl eq_refl)).
    simpl. lia.
Defined.

(** ** The scenario of the twin update *)

Lemma twin_update_scenario_farm :
  parseUint32 "85" = Ok 85 /\
  exists st',
    decryptTwinUpdate (E := TestDouble.external) 200 TestDouble.farm 1
      TestDouble.twin_payload (1 :: TestDouble.twin_payload)
      = Ok (st', [TwinDecrypted 7]) /\
    decryptedTwins st' 7 = DecryptedTwin.mk "Healthy,85% moisture" 85 true /\
    getDecryptedTwin st' 7 = ("Healthy,85% moisture", 85, true).
Proof.
  apply (twin_update_scenario (E := TestDouble.external) 200 TestDouble.farm 1 7
           TestDouble.twin_payload (1 :: TestDouble.twin_payload)).
  - reflexivity.
  - discriminate.
  - reflexivity.
  - reflexivity.
  - right. vm_compute. split; [discriminate | reflexivity].
Defined.

(** ** An aggregate revealed *)

Lemma decryptAggregate_broadcasts_only_farm :
  step TestDouble.farm (call_decryptAggregate 3 [12] [3; 12]) = TestDouble.farm /\
  (exists key value,
     [PlainAggregateResult "total_water" 12] = emitPlainAggregateResult key value /\
     abi_decode_uint32 (External := TestDouble.external) [12] = Some value /\
     findMetricKeyByHash TestDouble.farm (requestToEntityId TestDouble.farm 3) = Ok key) /\
  decryptAggregate (E := TestDouble.external) TestDouble.farm 3 [12] [3; 12]
    = Ok (TestDouble.farm, [PlainAggregateResult "total_water" 12]).
Proof.
  destruct (decryptAggregate_broadcasts_only (E := TestDouble.external)
              TestDouble.farm 3 [12] [3; 12]) as (Hsame & Hevent & Hruns).
  split; [exact Hsame|]. split.
  - apply (Hevent TestDouble.farm [PlainAggregateResult "total_water" 12]).
    reflexivity.
  - apply (Hruns "total_water" 12); reflexivity.
Defined.

(** ** Reading ids nobody submitted *)

(** The batch [0; 4; 99] names no reading of the farm.  The contract
    packs eighteen zero handles for it and the library refuses them: the
    call reverts. *)
Lemma unsubmitted_readings_refused_by_library :
  Forall (fun id => id <= 0 \/ readingCount TestDouble.farm < id) [0; 4; 99] /\
  requestTwinUpdate_ciphertexts (E := TestDouble.external) TestDouble.farm [0; 4; 99]
    = Ok (replicate 18 0) /\
  requestTwinUpdate (E := TestDouble.external) TestDouble.farm 7 [0; 4; 99]
    = Revert RequestRejected /\
  ~ exists st' evs,
      requestTwinUpdate (E := TestDouble.external) TestDouble.farm 7 [0; 4; 99]
        = Ok (st', evs).
Proof.
  assert (Hrun : requestTwinUpdate (E := TestDouble.external) TestDouble.farm 7 [0; 4; 99]
                 = Revert RequestRejected) by reflexivity.
  split.
  { constructor; [left; lia|].
    constructor; [right; vm_compute; reflexivity|].
    constructor; [right; vm_compute; reflexivity|].
    constructor. }
  split; [reflexivity|]. split; [exact Hrun|].
  intros (st' & evs & Hok). rewrite Hrun in Hok. discriminate Hok.
Qed.

Lemma unsubmitted_readings_reach_the_library_farm :
  requestTwinUpdate_ciphertexts (E := TestDouble.external) TestDouble.farm [0; 4; 99]
    = Ok (replicate 18 0) /\
  readings TestDouble.farm 99 = EncryptedReading.zero /\
  Forall (fun c => c = 0) (replicate 18 0) /\
  requestTwinUpdate (E := TestDouble.external) TestDouble.farm 7 [0; 4; 99]
    = Revert RequestRejected /\
  exists st',
    requestTwinUpdate (E := TestDouble.external) TestDouble.farm 7 [3; 1]
      = Ok (st', [TwinUpdateRequested 7 4]).
Proof.
  destruct (unsubmitted_readings_reach_the_library (E := TestDouble.external) 0
              TestDouble.farm_calls 7 [0; 4; 99]) as (Hcts & Hslot & Hall & _ & Hrefused).
  { discriminate. }
  { vm_compute. discriminate. }
  destruct (unsubmitted_readings_reach_the_library (E := TestDouble.external) 0
              TestDouble.farm_calls 7 [3; 1]) as (_ & _ & _ & Haccepted & _).
  { discriminate. }
  { vm_compute. discriminate. }
  split; [exact Hcts|]. split; [|split; [|split]].
  - apply (Hslot 99). right. vm_compute. reflexivity.
  - apply Hall.
    constructor; [left; lia|].
    constructor; [right; vm_compute; reflexivity|].
    constructor; [right; vm_compute; reflexivity|].
    constructor.
  - apply Hrefused. reflexivity.
  - apply (Haccepted 4 4). reflexivity.
Defined.

(** ** One key, added to twice *)


(** * Further properties of the contract *)

Section ParseUint32.

Ltac unbind := unfold mbind, Result_bind, mret, Result_ret in *.

Lemma byte_value_digit_char (d : Z) : is_digit d -> byte_value (digit_char d) = 48 + d.
Proof.
  intros [Hlo Hhi]. unfold byte_value, digit_char.
  rewrite N_ascii_embedding by lia. lia.
Qed.

Lemma digits_value_from_ge (ds : list Z) :
  forall acc, Forall is_digit ds -> 0 <= acc -> acc <= digits_value_from acc ds.
Proof.
  unfold digits_value_from.
  induction ds as [|d ds IH]; intros acc Hds Hacc; simpl; [lia|].
  inversion Hds as [|? ? [Hlo Hhi] Hds']; subst.
  specialize (IH (acc * 10 + d) Hds'). lia.
Qed.

Lemma parseUint32_from_digits (ds : list Z) :
  forall (acc : uint32) (rest : string),
    Forall is_digit ds -> stops rest -> 0 <= acc <= MAX_UINT32 ->
    parseUint32_from (digit_string ds +:+ rest) acc =
      if digits_value_from acc ds <=? MAX_UINT32
      then Ok (digits_value_from acc ds)
      else Revert (Panic ARITHMETIC_OVERFLOW).
Proof.
  induction ds as [|d ds IH]; intros acc rest Hds Hstop Hacc.
  - simpl. destruct (Z.leb_spec acc MAX_UINT32); [|lia].
    destruct rest as [|c rest]; [done|]. simpl in *.
    destruct (Z.leb_spec 48 (byte_value c)); destruct (Z.leb_spec (byte_value c) 57);
      simpl; try done.
    exfalso. apply Hstop. lia.
  - inversion Hds as [|? ? Hd Hds']; subst. pose proof Hd as [Hlo Hhi].
    cbn [digit_string].
    change (String (digit_char d) (digit_string ds) +:+ rest)
      with (String (digit_char d) (digit_string ds +:+ rest)).
    cbn [parseUint32_from]. cbv zeta.
    rewrite (byte_value_digit_char d Hd).
    destruct (Z.leb_spec 48 (48 + d)); [|lia].
    destruct (Z.leb_spec (48 + d) 57); [|lia]. cbn [andb].
    change (digits_value_from acc (d :: ds)) with (digits_value_from (acc * 10 + d) ds).
    pose proof (digits_value_from_ge ds (acc * 10 + d) Hds' ltac:(lia)) as Hge.
    unfold mul32, add32, checked. unbind.
    destruct (Z.leb_spec 0 (acc * 10)); [|lia].
    destruct (Z.leb_spec (acc * 10) MAX_UINT32); cbn [andb].
    + replace (acc * 10 + (48 + d - 48)) with (acc * 10 + d) by lia.
      destruct (Z.leb_spec 0 (acc * 10 + d)); [|lia].
      destruct (Z.leb_spec (acc * 10 + d) MAX_UINT32); cbn [andb].
      * apply IH; [done | done | lia].
      * destruct (Z.leb_spec (digits_value_from (acc * 10 + d) ds) MAX_UINT32); [lia | done].
    + destruct (Z.leb_spec (digits_value_from (acc * 10 + d) ds) MAX_UINT32); [lia | done].
Qed.

Lemma MAX_UINT32_nonneg : 0 <= 0 <= MAX_UINT32.
Proof. by vm_compute. Qed.

(** X1. A run of decimal digits that spells a number up to [2^32 - 1],
    followed by nothing or by anything that does not start with a digit,
    parses to that number: leading zeros count for nothing and what
    follows the digits is ignored. *)
Theorem parseUint32_reads_decimal (ds : list Z) (rest : string) :
  Forall is_digit ds ->
  stops rest ->
  digits_value ds <= MAX_UINT32 ->
  parseUint32 (digit_string ds +:+ rest) = Ok (digits_value ds).
Proof.
  intros Hds Hstop Hfit. unfold parseUint32.
  rewrite (parseUint32_from_digits ds 0 rest Hds Hstop MAX_UINT32_nonneg).
  fold (digits_value ds). by destruct (Z.leb_spec (digits_value ds) MAX_UINT32); [|lia].
Qed.

(** X2. A run of decimal digits that spells a number above [2^32 - 1]
    makes [parseUint32] revert with the overflow panic, whatever follows:
    the number is neither truncated nor wrapped around. *)
Theorem parseUint32_overflow_panics (ds : list Z) (rest : string) :
  Forall is_digit ds ->
  stops rest ->
  MAX_UINT32 < digits_value ds ->
  parseUint32 (digit_string ds +:+ rest) = Revert (Panic ARITHMETIC_OVERFLOW).
Proof.
  intros Hds Hstop Hbig. unfold parseUint32.
  rewrite (parseUint32_from_digits ds 0 rest Hds Hstop MAX_UINT32_nonneg).
  fold (digits_value ds). by destruct (Z.leb_spec (digits_value ds) MAX_UINT32); [lia|].
Qed.

Lemma digit_prefix (s : string) :
  exists ds rest, s = digit_string ds +:+ rest /\ Forall is_digit ds /\ stops rest.
Proof.
  induction s as [|c s (ds & rest & Heq & Hds & Hstop)].
  - by exists [], EmptyString.
  - destruct (decide (48 <= byte_value c <= 57)) as [Hdigit|Hother].
    + exists (byte_value c - 48 :: ds), rest. split; [|split].
      * simpl. unfold digit_char.
        replace (48 + (byte_value c - 48)) with (byte_value c) by lia.
        unfold byte_value. rewrite N2Z.id, ascii_N_embedding. by rewrite Heq.
      * constructor; [unfold is_digit; lia | done].
      * done.
    + by exists [], (String c s).
Qed.

(** X3. Every string is a run of decimal digits followed by a rest that
    does not start with a digit, and [parseUint32] returns the number the
    run spells when it fits 32 bits and reverts with the overflow panic
    otherwise.  So it never fails for another reason, a string without a
    leading digit parses to zero, and a returned value is a [uint32]. *)
Theorem parseUint32_characterised (s : string) :
  exists ds rest,
    s = digit_string ds +:+ rest /\
    Forall is_digit ds /\
    stops rest /\
    parseUint32 s =
      (if digits_value ds <=? MAX_UINT32 then Ok (digits_value ds)
       else Revert (Panic ARITHMETIC_OVERFLOW)) /\
    (forall v, parseUint32 s = Ok v -> 0 <= v <= MAX_UINT32) /\
    (ds = [] -> parseUint32 s = Ok 0).
Proof.
  destruct (digit_prefix s) as (ds & rest & -> & Hds & Hstop).
  exists ds, rest. do 3 (split; [done|]).
  pose proof (parseUint32_from_digits ds 0 rest Hds Hstop MAX_UINT32_nonneg) as Hparse.
  fold (parseUint32 (digit_string ds +:+ rest)) in Hparse. fold (digits_value ds) in Hparse.
  split; [exact Hparse|]. split.
  - intros v. rewrite Hparse.
    pose proof (digits_value_from_ge ds 0 Hds ltac:(lia)) as Hge. fold (digits_value ds) in Hge.
    destruct (Z.leb_spec (digits_value ds) MAX_UINT32); [|discriminate].
    intros [= <-]. lia.
  - intros ->. rewrite Hparse. reflexivity.
Qed.

End ParseUint32.

Section Registry.
Context `{E : External}.

Ltac unbind := unfold mbind, Result_bind, mret, Result_ret in *.

(** ** Looking a key up by its hash *)

Lemma findMetricKeyByHash_from_app (pre post : list string) (hash : uint256) (key : string) :
  Forall (fun k => keccak256 k <> hash) pre ->
  keccak256 key = hash ->
  findMetricKeyByHash_from (pre ++ key :: post) hash = Ok key.
Proof.
  intros Hpre Hkey. induction Hpre as [|k pre Hk _ IH]; simpl.
  - by destruct (Z.eqb_spec (keccak256 key) hash).
  - by destruct (Z.eqb_spec (keccak256 k) hash).
Qed.

Lemma findMetricKeyByHash_from_split (keys : list string) (hash : uint256) (key : string) :
  findMetricKeyByHash_from keys hash = Ok key ->
  exists pre post,
    keys = pre ++ key :: post /\
    keccak256 key = hash /\
    Forall (fun k => keccak256 k <> hash) pre.
Proof.
  induction keys as [|k keys IH]; simpl; [discriminate|].
  destruct (Z.eqb_spec (keccak256 k) hash) as [Heq|Hne].
  - intros [= <-]. by exists [], keys.
  - intros Hfound. destruct (IH Hfound) as (pre & post & -> & Hkey & Hpre).
    exists (k :: pre), post. split; [done|]. split; [done|]. by constructor.
Qed.

(** X4. [findMetricKeyByHash] returns the first key of [metricKeys], in
    the order the keys were added, whose hash is the one asked for, and
    reverts with "Metric key not found" exactly when no listed key has
    that hash.  Of two listed keys with the same hash only the older one
    is ever found. *)
Theorem findMetricKeyByHash_first_match st (hash : uint256) :
  (forall key,
     findMetricKeyByHash st hash = Ok key <->
     exists pre post,
       metricKeys st = pre ++ key :: post /\
       keccak256 key = hash /\
       Forall (fun k => keccak256 k <> hash) pre) /\
  (findMetricKeyByHash st hash = Revert (Error "Metric key not found") <->
   Forall (fun k => keccak256 k <> hash) (metricKeys st)) /\
  (forall r, findMetricKeyByHash st hash = Revert r -> r = Error "Metric key not found").
Proof.
  unfold findMetricKeyByHash. split; [|split].
  - intros key. split.
    + apply findMetricKeyByHash_from_split.
    + intros (pre & post & -> & Hkey & Hpre). by apply findMetricKeyByHash_from_app.
  - split.
    + induction (metricKeys st) as [|k keys IH]; simpl; [constructor|].
      destruct (Z.eqb_spec (keccak256 k) hash); [discriminate|].
      intros Hrest. constructor; [done | by apply IH].
    + induction 1 as [|k keys Hk _ IH]; simpl; [done|].
      by destruct (Z.eqb_spec (keccak256 k) hash).
  - intros r. induction (metricKeys st) as [|k keys IH]; simpl; [by intros [= <-]|].
    by destruct (keccak256 k =? hash).
Qed.

Lemma first_with_hash (keys : list string) (key : string) :
  key ∈ keys ->
  (forall k, k ∈ keys -> keccak256 k = keccak256 key -> k = key) ->
  exists pre post,
    keys = pre ++ key :: post /\
    Forall (fun k => keccak256 k <> keccak256 key) pre.
Proof.
  induction keys as [|k keys IH]; intros Hin Hinj.
  - by apply elem_of_nil in Hin.
  - destruct (decide (keccak256 k = keccak256 key)) as [Heq|Hne].
    + assert (k = key) as -> by (apply Hinj; [left | done]).
      by exists [], keys.
    + apply elem_of_cons in Hin as [->|Hin]; [done|].
      destruct (IH Hin) as (pre & post & -> & Hall).
      * intros k' Hk'. apply Hinj. by right.
      * exists (k :: pre), post. split; [done|]. by constructor.
Qed.

(** ** The key list over time *)

Lemma exec_metricKeys_prefix st (c : Call) st' evs :
  exec st c = Ok (st', evs) ->
  exists added, metricKeys st' = metricKeys st ++ added.
Proof.
  intros Hexec. destruct c;
    try (exists []; rewrite app_nil_r;
         match goal with
         | H : exec _ ?call = _ |- _ =>
             exact (proj1 (exec_aggregates _ call _ _ H))
         end).
  simpl in Hexec. unfold addEncryptedAggregate in Hexec.
  destruct (negb _); injection Hexec as <- _; simpl.
  - by exists [key].
  - exists []. by rewrite app_nil_r.
Qed.

Lemma run_metricKeys_prefix st (calls : list Call) :
  exists added, metricKeys (run st calls) = metricKeys st ++ added.
Proof.
  induction calls as [|c calls (added & IH)] using rev_ind.
  - exists []. by rewrite app_nil_r.
  - rewrite run_snoc. unfold step.
    destruct (exec (run st calls) c) as [[st' evs]|] eqn:Hexec; [|by exists added].
    destruct (exec_metricKeys_prefix _ _ _ _ Hexec) as [more Hmore].
    exists (added ++ more). by rewrite Hmore, IH, app_assoc.
Qed.

(** X5. Keys are only ever appended to [metricKeys]: whatever calls
    follow, the list as it stands stays a prefix of the later list and no
    key moves or leaves.  Hence a hash that resolves to a key keeps
    resolving to the same key for the life of the contract. *)
Theorem metricKeys_append_only st (calls : list Call) :
  (exists added, metricKeys (run st calls) = metricKeys st ++ added) /\
  (forall hash key,
     findMetricKeyByHash st hash = Ok key ->
     findMetricKeyByHash (run st calls) hash = Ok key).
Proof.
  destruct (run_metricKeys_prefix st calls) as [added Hadd].
  split; [by exists added|].
  intros hash key Hfound. unfold findMetricKeyByHash in *.
  destruct (findMetricKeyByHash_from_split _ _ _ Hfound) as (pre & post & Hkeys & Hkey & Hpre).
  rewrite Hadd, Hkeys, <- app_assoc. simpl.
  by apply findMetricKeyByHash_from_app.
Qed.

(** ** Adding up *)


Section Sums.

Hypothesis zero_uninitialized : FHE_isInitialized 0 = false.
Hypothesis sum_initialized : forall a b, FHE_isInitialized (FHE_add a b) = true.



(** X8. The whole way of an aggregate reveal.  In a reachable storage,
    for a listed key no other listed key shares the hash of, when the
    library accepts the decryption request the call goes through, and the
    callback that is given the request id the library handed out, a proof
    the library accepts and a payload that decodes to [value] emits
    [PlainAggregateResult(key, value)] with that very key and leaves the
    storage as the request left it. *)
Theorem aggregate_reveal_names_its_key f (calls : list Call) (key : string) reqId f' :
  let st := run (initial f) calls in
  key ∈ metricKeys st ->
  (forall k, k ∈ metricKeys st -> keccak256 k = keccak256 key -> k = key) ->
  FHE_requestDecryption (fhe st) [FHE_toBytes32 (encryptedMetricAggregates st key)]
    decryptAggregate_selector = Some (reqId, f') ->
  exists st',
    requestAggregateDecryption st key = Ok (st', []) /\
    forall cleartexts proof value,
      FHE_checkSignatures (fhe st') reqId cleartexts proof = true ->
      abi_decode_uint32 cleartexts = Some value ->
      decryptAggregate st' reqId cleartexts proof
        = Ok (st', [PlainAggregateResult key value]).
Proof.
  intros st Hin Hinj Hlib.
  destruct (run_keys_wf zero_uninitialized sum_initialized f calls) as [_ Hiff].
  fold st in Hiff. pose proof (proj1 (Hiff key) Hin) as Hinit.
  destruct (requestAggregateDecryption_ok st key reqId f' Hinit Hlib)
    as (st' & Hrun & Hent & _ & Hkeys & _).
  exists st'. split; [exact Hrun|].
  intros cleartexts proof value Hsig Hval.
  apply decryptAggregate_ok; [done| |done].
  rewrite Hent. unfold findMetricKeyByHash. rewrite Hkeys.
  destruct (first_with_hash (metricKeys st) key Hin Hinj) as (pre' & post' & Hsplit & Hall).
  rewrite Hsplit.
  by apply findMetricKeyByHash_from_app.
Qed.

End Sums.

End Registry.

Section Twins.
Context `{E : External}.

Ltac unbind := unfold mbind, Result_bind, mret, Result_ret in *.

(** ** What the twin-update callback writes *)

Lemma decryptTwinUpdate_effect now st requestId cleartexts proof st' evs :
  decryptTwinUpdate now st requestId cleartexts proof = Ok (st', evs) ->
  let twinId := requestToEntityId st requestId in
  let old := encryptedTwins st twinId in
  exists parts score,
    abi_decode_strings cleartexts = Some parts /\
    match parts !! 1%nat with Some s => parseUint32 s | None => Ok 0 end = Ok score /\
    decryptedTwins st' =
      <[twinId := DecryptedTwin.mk (default "" (parts !! 0%nat)) score true]>
        (decryptedTwins st) /\
    ((EncryptedTwin.id old = 0 /\
      0 <= twinCount st + 1 <= MAX_UINT256 /\
      twinCount st' = twinCount st + 1 /\
      encryptedTwins st' =
        <[twinId := EncryptedTwin.mk twinId (FHE_asEuint32 0) (FHE_asEuint32 0) now]>
          (encryptedTwins st)) \/
     (EncryptedTwin.id old <> 0 /\
      twinCount st' = twinCount st /\
      encryptedTwins st' =
        <[twinId := EncryptedTwin.mk (EncryptedTwin.id old)
                      (EncryptedTwin.encryptedStateHash old)
                      (EncryptedTwin.encryptedHealthScore old) now]>
          (encryptedTwins st))).
Proof.
  unfold decryptTwinUpdate, checkSignatures, decode_strings. unbind.
  destruct (require _ _); [|discriminate].
  destruct (FHE_checkSignatures _ _ _ _); [|discriminate].
  destruct (abi_decode_strings _) as [parts|]; [|discriminate].
  destruct (match parts !! 1%nat with Some s => parseUint32 s | None => Ok 0 end)
    as [score|] eqn:Hscore; [|discriminate].
  cbn -[add256].
  match goal with
  | |- context [if ?c =? 0 then _ else _] => destruct (Z.eqb_spec c 0) as [Hnew|Hold]
  end.
  - destruct (add256 _ _) as [tc|] eqn:Htc; [|discriminate].
    apply checked_inv in Htc as [-> Hrange]. intros [= <- <-].
    exists parts, score. do 2 (split; [done|]). simpl.
    split; [by destruct (parts !! 0%nat)|]. left. done.
  - intros [= <- <-].
    exists parts, score. do 2 (split; [done|]). simpl.
    split; [by destruct (parts !! 0%nat)|]. right. done.
Qed.

(** No other call writes a twin record, a twin view or the twin counter. *)
Lemma exec_twins st (c : Call) st' evs :
  exec st c = Ok (st', evs) ->
  match c with
  | call_decryptTwinUpdate _ _ _ _ => True
  | _ => encryptedTwins st' = encryptedTwins st /\
         decryptedTwins st' = decryptedTwins st /\
         twinCount st' = twinCount st
  end.
Proof.
  intros Hexec. destruct c; simpl in Hexec; [| |done| | | | |].
  - unfold submitEncryptedReading in Hexec. unbind.
    destruct (add256 _ _); [|discriminate]. by injection Hexec as <- <-.
  - unfold requestTwinUpdate, register in Hexec. unbind.
    destruct (requestTwinUpdate_ciphertexts _ _); [|discriminate].
    destruct (FHE_requestDecryption _ _ _) as [[? ?]|]; [|discriminate].
    by injection Hexec as <- <-.
  - unfold submitEncryptedRecommendationRequest, register in Hexec. unbind.
    destruct (add256 _ _); [|discriminate]. simpl in Hexec.
    destruct (FHE_requestDecryption _ _ _) as [[? ?]|]; [|discriminate].
    by injection Hexec as <- <-.
  - unfold decryptRecommendation in Hexec. unbind.
    destruct (require _ _); [|discriminate].
    destruct (checkSignatures _ _ _ _); [|discriminate].
    destruct (decode_strings _); [|discriminate]. by injection Hexec as <- <-.
  - unfold addEncryptedAggregate in Hexec.
    destruct (negb _); by injection Hexec as <- <-.
  - unfold requestAggregateDecryption, register in Hexec. unbind.
    destruct (require _ _); [|discriminate]. simpl in Hexec.
    destruct (FHE_requestDecryption _ _ _) as [[? ?]|]; [|discriminate].
    by injection Hexec as <- <-.
  - by destruct (decryptAggregate_inv _ _ _ _ _ _ Hexec) as (-> & _).
Qed.

Lemma initial_twins_wf f : twins_wf (initial f).
Proof. intros t. by left. Qed.

Lemma step_twins_wf st (c : Call) : twins_wf st -> twins_wf (step st c).
Proof.
  intros Hwf. unfold step.
  destruct (exec st c) as [[st' evs]|] eqn:Hexec; [|done].
  pose proof (exec_twins _ _ _ _ Hexec) as Hframe.
  destruct c;
    try (match type of Hframe with
         | _ /\ _ => destruct Hframe as (Henc & Hdec & _); unfold twins_wf;
                     rewrite Henc, Hdec; exact Hwf
         end).
  simpl in Hexec.
  pose proof (decryptTwinUpdate_inv _ _ _ _ _ _ _ Hexec) as (Hreg & _).
  destruct (decryptTwinUpdate_effect _ _ _ _ _ _ _ Hexec)
    as (parts & score & _ & _ & Hdec & Henc).
  intros t. unfold twins_wf in Hwf.
  destruct (decide (requestToEntityId st requestId = t)) as [<-|Hne].
  - right. rewrite Hdec, fn_lookup_insert. split; [done|].
    destruct Henc as [(Hnew & _ & _ & ->)|(Hold & _ & ->)];
      rewrite fn_lookup_insert; simpl; [done|].
    destruct (Hwf (requestToEntityId st requestId))
      as [[Hzero _]|(_ & Hid & Hhash & Hscore & _)]; [|done].
    rewrite Hzero in Hold. done.
  - rewrite Hdec, fn_lookup_insert_ne by done.
    destruct Henc as [(_ & _ & _ & ->)|(_ & _ & ->)];
      rewrite fn_lookup_insert_ne by done; apply Hwf.
Qed.

(** X9. In every storage the deployed contract can reach, a twin either
    has neither a record nor a view (both read as zero, so
    [getDecryptedTwin] answers the empty summary, score 0 and
    [revealed = false]), or it has been revealed: then its id is not zero,
    its record carries that id, and the record's two encrypted handles are
    [FHE.asEuint32(0)].  The contract never stores any other handle in a
    twin record. *)
Theorem twin_record_iff_revealed f (calls : list Call) (twinId : uint256) :
  let st := run (initial f) calls in
  (DecryptedTwin.revealed (decryptedTwins st twinId) = false ->
   encryptedTwins st twinId = EncryptedTwin.zero /\
   getDecryptedTwin st twinId = ("", 0, false)) /\
  (DecryptedTwin.revealed (decryptedTwins st twinId) = true ->
   twinId <> 0 /\
   EncryptedTwin.id (encryptedTwins st twinId) = twinId /\
   EncryptedTwin.encryptedStateHash (encryptedTwins st twinId) = FHE_asEuint32 0 /\
   EncryptedTwin.encryptedHealthScore (encryptedTwins st twinId) = FHE_asEuint32 0).
Proof.
  intros st.
  assert (Hwf : twins_wf st).
  { unfold st. clear st. induction calls as [|c calls IH] using rev_ind.
    - apply initial_twins_wf.
    - rewrite run_snoc. by apply step_twins_wf. }
  destruct (Hwf twinId) as [[Henc Hdec]|(Hne & Hid & Hhash & Hscore & Hrev)].
  - split.
    + intros _. split; [done|]. unfold getDecryptedTwin. by rewrite Hdec.
    + rewrite Hdec. discriminate.
  - split.
    + rewrite Hrev. discriminate.
    + done.
Qed.

(** X10. Calling back twice for the same twin.  When a twin-update
    callback has gone through, a later one for the same twin, under any
    request id and with any payload, counts the twin no second time: the
    twin counter stays, the record keeps its id and handles and gets the
    new time, and the view is replaced by what the later payload says. *)
Theorem repeated_twin_callback_counts_once
    now1 now2 st st1 st2 requestId1 requestId2 cleartexts1 cleartexts2 proof1 proof2
    evs1 evs2 :
  decryptTwinUpdate now1 st requestId1 cleartexts1 proof1 = Ok (st1, evs1) ->
  requestToEntityId st requestId2 = requestToEntityId st requestId1 ->
  decryptTwinUpdate now2 st1 requestId2 cleartexts2 proof2 = Ok (st2, evs2) ->
  let twinId := requestToEntityId st requestId1 in
  twinCount st2 = twinCount st1 /\
  EncryptedTwin.id (encryptedTwins st2 twinId) = EncryptedTwin.id (encryptedTwins st1 twinId) /\
  EncryptedTwin.lastUpdated (encryptedTwins st2 twinId) = now2 /\
  exists parts score,
    abi_decode_strings cleartexts2 = Some parts /\
    match parts !! 1%nat with Some s => parseUint32 s | None => Ok 0 end = Ok score /\
    decryptedTwins st2 twinId = DecryptedTwin.mk (default "" (parts !! 0%nat)) score true.
Proof.
  intros Hfirst Hsame Hsecond twinId.
  destruct (decryptTwinUpdate_inv _ _ _ _ _ _ _ Hfirst)
    as (_ & _ & _ & _ & _ & _ & _ & _ & Hid1 & Hent & _).
  destruct (decryptTwinUpdate_effect _ _ _ _ _ _ _ Hsecond)
    as (parts & score & Hdec & Hscore & Hview & Henc).
  rewrite Hent, Hsame in Hview, Henc. fold twinId in Hview, Henc, Hid1.
  destruct Henc as [(Hnew & _)|(_ & Hcount & Henc)]; [contradiction|].
  split; [done|]. rewrite Henc, Hview, !fn_lookup_insert. simpl.
  do 2 (split; [done|]). by exists parts, score.
Qed.

Lemma parseUint32_reverts_with_panic (s : string) r :
  parseUint32 s = Revert r -> r = Panic ARITHMETIC_OVERFLOW.
Proof.
  destruct (digit_prefix s) as (ds & rest & -> & Hds & Hstop). unfold parseUint32.
  rewrite (parseUint32_from_digits ds 0 rest Hds Hstop MAX_UINT32_nonneg).
  destruct (_ <=? _); [discriminate | by intros [= <-]].
Qed.

(** X11. When the twin-update callback goes through and when not.  It
    succeeds exactly when the request id is registered, the library
    accepts the proof, the payload decodes to a string array, its second
    string, if there is one, parses as a [uint32], and the twin has a
    record already or the twin counter can still be raised.  It fails for
    one of four reasons only: "Invalid request id", the rejected proof,
    a payload that does not decode, or the overflow panic. *)
Theorem decryptTwinUpdate_succeeds_iff now st requestId cleartexts proof :
  let twinId := requestToEntityId st requestId in
  ((exists st', decryptTwinUpdate now st requestId cleartexts proof
                  = Ok (st', [TwinDecrypted twinId])) <->
   twinId <> 0 /\
   FHE_checkSignatures (fhe st) requestId cleartexts proof = true /\
   (exists parts score,
      abi_decode_strings cleartexts = Some parts /\
      match parts !! 1%nat with Some s => parseUint32 s | None => Ok 0 end = Ok score) /\
   (EncryptedTwin.id (encryptedTwins st twinId) <> 0 \/
    0 <= twinCount st + 1 <= MAX_UINT256)) /\
  (forall r,
     decryptTwinUpdate now st requestId cleartexts proof = Revert r ->
     r = Error "Invalid request id" \/ r = InvalidSignatures \/
     r = AbiDecodeFailed \/ r = Panic ARITHMETIC_OVERFLOW).
Proof.
  intros twinId. split; [split|].
  - intros [st' Hrun].
    destruct (decryptTwinUpdate_inv _ _ _ _ _ _ _ Hrun) as (Hreg & Hsig & _).
    destruct (decryptTwinUpdate_effect _ _ _ _ _ _ _ Hrun)
      as (parts & score & Hdec & Hscore & _ & Henc).
    do 2 (split; [done|]). split; [by exists parts, score|].
    destruct Henc as [(_ & Hroom & _)|(Hold & _)]; [by right | by left].
  - intros (Hreg & Hsig & (parts & score & Hdec & Hscore) & Hroom).
    unfold decryptTwinUpdate, decode_strings. fold twinId.
    destruct (Z.eqb_spec twinId 0); [contradiction|]. simpl.
    rewrite (checkSignatures_true _ _ _ _ Hsig). unbind.
    rewrite Hdec, Hscore. cbn -[add256].
    match goal with
    | |- context [if ?c =? 0 then _ else _] => destruct (Z.eqb_spec c 0) as [Hnew|Hold]
    end.
    + destruct Hroom as [?|Hroom]; [contradiction|].
      rewrite add256_ok by lia. by eexists.
    + by eexists.
  - intros r. unfold decryptTwinUpdate, checkSignatures, decode_strings, require. unbind.
    fold twinId. destruct (negb (twinId =? 0)); [|intros [= <-]; by left].
    destruct (FHE_checkSignatures _ _ _ _); [|intros [= <-]; by right; left].
    destruct (abi_decode_strings _) as [parts|]; [|intros [= <-]; by right; right; left].
    destruct (match parts !! 1%nat with Some s => parseUint32 s | None => Ok 0 end)
      as [score|r'] eqn:Hscore.
    + cbn -[add256].
      match goal with
      | |- context [if ?c =? 0 then _ else _] => destruct (c =? 0)
      end; [|discriminate].
      unfold add256, checked. destruct (_ && _); [discriminate|].
      intros [= <-]. by right; right; right.
    + intros [= <-]. destruct (parts !! 1%nat) as [s|]; [|discriminate].
      right; right; right. by apply (parseUint32_reverts_with_panic s).
Qed.

End Twins.

Section Readings.
Context `{E : External}.

Ltac unbind := unfold mbind, Result_bind, mret, Result_ret in *.

(** ** Readings, once submitted *)

Lemma step_readings_kept st (c : Call) (id : uint256) :
  id <= readingCount st ->
  readings (step st c) id = readings st id /\
  readingCount st <= readingCount (step st c).
Proof.
  intros Hid. unfold step.
  destruct (exec st c) as [[st' evs]|] eqn:Hexec; [|split; [done | lia]].
  apply exec_readings in Hexec.
  destruct c; try (destruct Hexec as [-> ->]; split; [done | lia]).
  simpl in Hexec. destruct Hexec as (_ & -> & ->).
  rewrite fn_lookup_insert_ne by lia. split; [done | lia].
Qed.

(** X12. A reading that has been stored is never changed: no call,
    and so no sequence of calls, writes to an id up to [readingCount], and
    [readingCount] never goes down. *)
Theorem stored_readings_never_change st (calls : list Call) (id : uint256) :
  id <= readingCount st ->
  readings (run st calls) id = readings st id /\
  readingCount st <= readingCount (run st calls).
Proof.
  intros Hid. induction calls as [|c calls [IHr IHc]] using rev_ind.
  - split; [done | simpl; lia].
  - rewrite run_snoc.
    destruct (step_readings_kept (run st calls) c id) as [Hr Hc]; [lia|].
    split; [by rewrite Hr | lia].
Qed.

(** X13. Readings are numbered from one in the order they are
    submitted, whatever other calls come in between: after any call
    sequence on the deployed contract that submits no more than [2^256 - 1]
    readings, [readingCount] is the number of readings submitted and the
    reading submitted as the [i+1]-th is stored under the id [i+1], with
    that id in its [id] field and its six handles as given. *)
Theorem readings_numbered_in_order f (calls : list Call) :
  Z.of_nat (length (reading_payloads calls)) <= MAX_UINT256 ->
  let st := run (initial f) calls in
  readingCount st = Z.of_nat (length (reading_payloads calls)) /\
  forall (i : nat) payload,
    reading_payloads calls !! i = Some payload ->
    readings st (Z.of_nat i + 1) = payload (Z.of_nat i + 1).
Proof.
  unfold reading_payloads.
  induction calls as [|c calls IH] using rev_ind; intros Hfit; cbv zeta in *.
  - split; [done|]. intros i payload Hi. by destruct i.
  - rewrite omap_app, length_app in Hfit. rewrite omap_app, length_app, run_snoc.
    destruct IH as [IHcount IHread]; [lia|].
    unfold step.
    destruct (exec (run (initial f) calls) c) as [[st' evs]|] eqn:Hexec.
    + pose proof (exec_readings _ _ _ _ Hexec) as Hframe.
      destruct c; try (destruct Hframe as [-> ->]; simpl; rewrite app_nil_r, Nat.add_0_r;
                       split; [exact IHcount | exact IHread]).
      simpl in Hframe. destruct Hframe as (_ & -> & ->). simpl.
      split; [lia|]. intros i payload Hi.
      apply lookup_app_Some in Hi as [Hi|[Hlen Hi]].
      * pose proof (lookup_lt_Some _ _ _ Hi) as Hlt. unfold uint256 in *.
        rewrite fn_lookup_insert_ne by lia. by apply IHread.
      * apply list_lookup_singleton_Some in Hi as [Hzero <-]. unfold uint256 in *.
        replace (Z.of_nat i + 1) with (readingCount (run (initial f) calls) + 1) by lia.
        by rewrite fn_lookup_insert.
    + destruct c; try (simpl; rewrite app_nil_r, Nat.add_0_r;
                       split; [exact IHcount | exact IHread]).
      exfalso. simpl in Hexec, Hfit. unfold submitEncryptedReading in Hexec. unbind.
      rewrite add256_ok in Hexec by lia. discriminate.
Qed.

(** ** The layout of the ciphertext array *)

Lemma flat_map_reading_handles_lookup st (readingIds : list uint256) :
  forall (i k : nat) (readingId : uint256),
    readingIds !! i = Some readingId -> (k < 6)%nat ->
    flat_map (fun id => reading_handles (readings st id)) readingIds !! (6 * i + k)%nat
      = reading_handles (readings st readingId) !! k.
Proof.
  induction readingIds as [|id0 rest IH]; intros i k readingId Hi Hk.
  - by rewrite lookup_nil in Hi.
  - cbn [flat_map]. destruct i as [|i].
    + injection Hi as ->. rewrite lookup_app_l by (simpl; lia). done.
    + rewrite lookup_app_r by (simpl; lia).
      replace (6 * S i + k - length (reading_handles (readings st id0)))%nat
        with (6 * i + k)%nat by (simpl; lia).
      by apply IH.
Qed.

(** X14. The array [requestTwinUpdate] hands to the decryption oracle
    for a non-empty batch has six entries per reading id, and entry
    [6*i + k] is the [k]-th handle (timestamp, temperature, humidity, CO2,
    light, soil moisture) of the reading stored under the [i]-th id of
    the batch; an id that occurs twice is packed twice. *)
Theorem requestTwinUpdate_ciphertext_layout st (readingIds : list uint256) :
  readingIds <> [] ->
  6 * Z.of_nat (length readingIds) <= MAX_UINT256 ->
  exists ciphertexts,
    requestTwinUpdate_ciphertexts st readingIds = Ok ciphertexts /\
    length ciphertexts = (6 * length readingIds)%nat /\
    forall (i k : nat) (readingId : uint256),
      readingIds !! i = Some readingId -> (k < 6)%nat ->
      ciphertexts !! (6 * i + k)%nat = reading_handles (readings st readingId) !! k.
Proof.
  intros Hne Hfit. eexists. split; [by apply requestTwinUpdate_ciphertexts_ok|].
  split; [|apply flat_map_reading_handles_lookup].
  clear. induction readingIds as [|id rest IH]; [done|].
  cbn [flat_map]. rewrite length_app, IH. simpl. lia.
Qed.

End Readings.

Section Tags.
Context `{E : External}.

Ltac unbind := unfold mbind, Result_bind, mret, Result_ret in *.

(** ** The tag is written and never read *)

(** X15. No callback looks at [requestToTag]: with any other content in
    that mapping each of the three callbacks reverts for the same reason
    or succeeds with the same events and the same writes, the tag mapping
    itself carried along untouched. *)
Theorem callbacks_ignore_the_tag st (tags : uint256 -> bytes32) now requestId cleartexts proof :
  let retag (r : Result Receipt) : Result Receipt :=
    match r with
    | Ok (st', evs) => Ok (set_requestToTag tags st', evs)
    | Revert reason => Revert reason
    end in
  decryptTwinUpdate now (set_requestToTag tags st) requestId cleartexts proof
    = retag (decryptTwinUpdate now st requestId cleartexts proof) /\
  decryptRecommendation (set_requestToTag tags st) requestId cleartexts proof
    = retag (decryptRecommendation st requestId cleartexts proof) /\
  decryptAggregate (set_requestToTag tags st) requestId cleartexts proof
    = retag (decryptAggregate st requestId cleartexts proof).
Proof.
  intros retag. subst retag. split; [|split].
  - unfold decryptTwinUpdate, checkSignatures, decode_strings, require. unbind. simpl.
    destruct (negb _); [|done].
    destruct (FHE_checkSignatures _ _ _ _); [|done].
    destruct (abi_decode_strings _) as [parts|]; [|done].
    destruct (match parts !! 1%nat with Some s => parseUint32 s | None => Ok 0 end); [|done].
    cbn -[add256].
    match goal with
    | |- context [if ?c =? 0 then _ else _] => destruct (c =? 0)
    end; [|done].
    by destruct (add256 _ _).
  - unfold decryptRecommendation, checkSignatures, decode_strings, require. unbind. simpl.
    destruct (negb _); [|done].
    destruct (FHE_checkSignatures _ _ _ _); [|done].
    by destruct (abi_decode_strings _).
  - unfold decryptAggregate, checkSignatures, decode_uint32, findMetricKeyByHash. unbind.
    simpl.
    destruct (FHE_checkSignatures _ _ _ _); [|done].
    destruct (findMetricKeyByHash_from _ _); [|done].
    by destruct (abi_decode_uint32 _).
Qed.

(** X16. A request is not tied to the callback its request function
    named.  The request id a successful [requestTwinUpdate] registers for
    a twin that is not zero is accepted by [decryptRecommendation] as
    well: given a proof the library accepts and a payload that decodes, it
    writes a revealed recommendation under the twin's id and emits
    [RecommendationDecrypted] for it. *)
Theorem twin_request_answers_as_recommendation st twinId (readingIds : list uint256)
    reqId f :
  readingIds <> [] ->
  6 * Z.of_nat (length readingIds) <= MAX_UINT256 ->
  twinId <> 0 ->
  FHE_requestDecryption (fhe st)
    (flat_map (fun id => reading_handles (readings st id)) readingIds)
    decryptTwinUpdate_selector = Some (reqId, f) ->
  exists st',
    requestTwinUpdate st twinId readingIds = Ok (st', [TwinUpdateRequested twinId reqId]) /\
    requestToTag st' reqId = keccak256 "twin_update" /\
    forall cleartexts proof items,
      FHE_checkSignatures (fhe st') reqId cleartexts proof = true ->
      abi_decode_strings cleartexts = Some items ->
      exists st'',
        decryptRecommendation st' reqId cleartexts proof
          = Ok (st'', [RecommendationDecrypted twinId]) /\
        decryptedRecommendations st'' twinId =
          DecryptedRecommendation.mk (default "" (items !! 0%nat))
            (default "" (items !! 1%nat)) (default "" (items !! 2%nat)) true.
Proof.
  intros Hne Hfit Htwin Hlib.
  destruct (requestTwinUpdate_ok st twinId readingIds reqId f Hne Hfit Hlib)
    as (st' & Hrun & Hent & Htag & _).
  exists st'. split; [exact Hrun|]. split; [exact Htag|].
  intros cleartexts proof items Hsig Hdec.
  destruct (decryptRecommendation_ok st' reqId cleartexts proof items)
    as (st'' & Hcb & Hview & _); rewrite ?Hent; try done.
  exists st''. by rewrite Hent in Hcb, Hview.
Qed.

End Tags.

Section Recommendations.
Context `{E : External}.

Ltac unbind := unfold mbind, Result_bind, mret, Result_ret in *.

(** ** Recommendation records *)

Lemma exec_recommendations st (c : Call) st' evs :
  exec st c = Ok (st', evs) ->
  match c with
  | call_submitEncryptedRecommendationRequest now w n l =>
      let rid := recommendationCount st + 1 in
      0 <= rid <= MAX_UINT256 /\
      recommendationCount st' = rid /\
      encryptedRecommendations st' =
        <[rid := EncryptedRecommendation.mk rid w n l now]> (encryptedRecommendations st)
  | _ => recommendationCount st' = recommendationCount st /\
         encryptedRecommendations st' = encryptedRecommendations st
  end.
Proof.
  intros Hexec. destruct c; simpl in Hexec.
  - unfold submitEncryptedReading in Hexec. unbind.
    destruct (add256 _ _); [|discriminate]. by injection Hexec as <- <-.
  - unfold requestTwinUpdate, register in Hexec. unbind.
    destruct (requestTwinUpdate_ciphertexts _ _); [|discriminate].
    destruct (FHE_requestDecryption _ _ _) as [[? ?]|]; [|discriminate].
    by injection Hexec as <- <-.
  - revert Hexec. unfold decryptTwinUpdate. unbind.
    destruct (require _ _); [|discriminate].
    destruct (checkSignatures _ _ _ _); [|discriminate].
    destruct (decode_strings _) as [parts|]; [|discriminate].
    destruct (match parts !! 1%nat with Some s => parseUint32 s | None => Ok 0 end);
      [|discriminate].
    cbn -[add256].
    match goal with |- context [if ?b then _ else _] => destruct b end.
    + destruct (add256 _ _); [|discriminate]. by intros [= <- <-].
    + by intros [= <- <-].
  - unfold submitEncryptedRecommendationRequest, register in Hexec. unbind.
    destruct (add256 _ _) as [rid|] eqn:Hrid; [|discriminate].
    apply checked_inv in Hrid as [-> Hrange]. simpl in Hexec.
    destruct (FHE_requestDecryption _ _ _) as [[? ?]|]; [|discriminate].
    injection Hexec as <- <-.
    simpl. split; [lia | done].
  - unfold decryptRecommendation in Hexec. unbind.
    destruct (require _ _); [|discriminate].
    destruct (checkSignatures _ _ _ _); [|discriminate].
    destruct (decode_strings _); [|discriminate]. by injection Hexec as <- <-.
  - unfold addEncryptedAggregate in Hexec.
    destruct (negb _); by injection Hexec as <- <-.
  - unfold requestAggregateDecryption, register in Hexec. unbind.
    destruct (require _ _); [|discriminate]. simpl in Hexec.
    destruct (FHE_requestDecryption _ _ _) as [[? ?]|]; [|discriminate].
    by injection Hexec as <- <-.
  - by destruct (decryptAggregate_inv _ _ _ _ _ _ Hexec) as (-> & _).
Qed.

Lemma step_recommendations_wf st (c : Call) :
  recommendations_wf st -> recommendations_wf (step st c).
Proof.
  intros [Hcount Hwf]. unfold step.
  destruct (exec st c) as [[st' evs]|] eqn:Hexec; [|by split].
  apply exec_recommendations in Hexec. unfold recommendations_wf.
  destruct c; try (destruct Hexec as [-> ->]; by split).
  simpl in Hexec. destruct Hexec as (Hrange & -> & ->). split; [lia|].
  intros id. split.
  - intros Hid. destruct (decide (id = recommendationCount st + 1)) as [->|Hne].
    + by rewrite fn_lookup_insert.
    + rewrite fn_lookup_insert_ne by done. apply Hwf. lia.
  - intros Hid. rewrite fn_lookup_insert_ne by lia. apply Hwf. lia.
Qed.

(** X17. In every storage the deployed contract can reach, the
    recommendation records sit at the ids [1 .. recommendationCount], each
    with its own id in its [id] field, and every other id reads as the
    zero record.  A successful [submitEncryptedRecommendationRequest]
    uses the next id, stores the three handles and the block time under
    it, and leaves the records before it alone. *)
Theorem recommendations_numbered f (calls : list Call) :
  let st := run (initial f) calls in
  recommendations_wf st /\
  forall now w n l st' evs,
    submitEncryptedRecommendationRequest now st w n l = Ok (st', evs) ->
    let rid := recommendationCount st + 1 in
    recommendationCount st' = rid /\
    encryptedRecommendations st' rid = EncryptedRecommendation.mk rid w n l now /\
    forall id, id <> rid -> encryptedRecommendations st' id = encryptedRecommendations st id.
Proof.
  intros st. split.
  - unfold st. clear st. induction calls as [|c calls IH] using rev_ind.
    + split; simpl; [lia|]. intros id. split; [lia | done].
    + rewrite run_snoc. by apply step_recommendations_wf.
  - intros now w n l st' evs Hrun.
    pose proof (exec_recommendations st (call_submitEncryptedRecommendationRequest now w n l)
                  st' evs Hrun) as (_ & Hcount & Hrecs).
    simpl in *. rewrite Hcount, Hrecs, fn_lookup_insert. do 2 (split; [done|]).
    intros id Hid. by rewrite fn_lookup_insert_ne.
Qed.

End Recommendations.

Section Outcomes.
Context `{E : External}.

Ltac unbind := unfold mbind, Result_bind, mret, Result_ret in *.

(** ** When the other two callbacks go through *)

(** X18. [decryptRecommendation] succeeds exactly when the request id
    is registered, the library accepts the proof and the payload decodes
    to a string array, of whatever length; otherwise it reverts with
    "Invalid request", the rejected proof or the decoding failure, in
    this order of precedence.  It stores the first three strings and
    ignores any further ones: a payload cut to its first three strings
    leaves the same view. *)
Theorem decryptRecommendation_succeeds_iff st requestId cleartexts proof :
  let recId := requestToEntityId st requestId in
  ((exists st', decryptRecommendation st requestId cleartexts proof
                  = Ok (st', [RecommendationDecrypted recId])) <->
   recId <> 0 /\
   FHE_checkSignatures (fhe st) requestId cleartexts proof = true /\
   exists items, abi_decode_strings cleartexts = Some items) /\
  (forall r,
     decryptRecommendation st requestId cleartexts proof = Revert r ->
     (r = Error "Invalid request" /\ recId = 0) \/
     (r = InvalidSignatures /\ recId <> 0 /\
      FHE_checkSignatures (fhe st) requestId cleartexts proof = false) \/
     (r = AbiDecodeFailed /\ recId <> 0 /\
      FHE_checkSignatures (fhe st) requestId cleartexts proof = true /\
      abi_decode_strings cleartexts = None)) /\
  (forall st' evs items,
     decryptRecommendation st requestId cleartexts proof = Ok (st', evs) ->
     abi_decode_strings cleartexts = Some items ->
     let kept := take 3 items in
     decryptedRecommendations st' recId =
       DecryptedRecommendation.mk (default "" (kept !! 0%nat)) (default "" (kept !! 1%nat))
         (default "" (kept !! 2%nat)) true).
Proof.
  intros recId. split; [split|split].
  - intros [st' Hrun].
    destruct (decryptRecommendation_inv _ _ _ _ _ _ Hrun) as (Hreg & Hsig & _ & items & Hdec & _).
    do 2 (split; [done|]). by exists items.
  - intros (Hreg & Hsig & items & Hdec).
    destruct (decryptRecommendation_ok st requestId cleartexts proof items Hreg Hsig Hdec)
      as (st' & Hrun & _).
    by exists st'.
  - intros r. unfold decryptRecommendation, checkSignatures, decode_strings, require. unbind.
    fold recId. destruct (Z.eqb_spec recId 0) as [Hzero|Hreg]; simpl.
    { intros [= <-]. by left. }
    destruct (FHE_checkSignatures _ _ _ _) eqn:Hsig.
    + destruct (abi_decode_strings _) eqn:Hdec; [discriminate|].
      intros [= <-]. right; right. done.
    + intros [= <-]. right; left. done.
  - intros st' evs items Hrun Hdec kept.
    destruct (decryptRecommendation_inv _ _ _ _ _ _ Hrun)
      as (_ & _ & _ & items' & Hdec' & Hview & _).
    rewrite Hdec in Hdec'. injection Hdec' as <-. fold recId in Hview. rewrite Hview.
    unfold kept. by rewrite !lookup_take_lt by lia.
Qed.

(** X19. [decryptAggregate] succeeds exactly when the library accepts
    the proof, some listed metric key has the hash the correlator holds
    for the request id, and the payload decodes to a [uint32]; otherwise
    it reverts with the rejected proof, "Metric key not found" or the
    decoding failure, in this order of precedence.  A request id that was
    never registered is looked up with the hash zero like any other
    hash. *)
Theorem decryptAggregate_succeeds_iff st requestId cleartexts proof :
  let keyHash := requestToEntityId st requestId in
  ((exists key value, decryptAggregate st requestId cleartexts proof
                        = Ok (st, [PlainAggregateResult key value])) <->
   FHE_checkSignatures (fhe st) requestId cleartexts proof = true /\
   (exists key, key ∈ metricKeys st /\ keccak256 key = keyHash) /\
   exists value, abi_decode_uint32 cleartexts = Some value) /\
  (forall r,
     decryptAggregate st requestId cleartexts proof = Revert r ->
     (r = InvalidSignatures /\
      FHE_checkSignatures (fhe st) requestId cleartexts proof = false) \/
     (r = Error "Metric key not found" /\
      FHE_checkSignatures (fhe st) requestId cleartexts proof = true /\
      Forall (fun k => keccak256 k <> keyHash) (metricKeys st)) \/
     (r = AbiDecodeFailed /\
      FHE_checkSignatures (fhe st) requestId cleartexts proof = true /\
      abi_decode_uint32 cleartexts = None)).
Proof.
  intros keyHash. split; [split|].
  - intros (key & value & Hrun).
    destruct (decryptAggregate_inv _ _ _ _ _ _ Hrun)
      as (_ & Hsig & key' & value' & _ & Hkey & Hval).
    split; [done|]. split; [|by exists value'].
    exists key'. by apply findMetricKeyByHash_from_found.
  - intros (Hsig & (key & Hin & Hkey) & value & Hval).
    destruct (findMetricKeyByHash st keyHash) as [key'|r] eqn:Hfind.
    + exists key', value. by apply decryptAggregate_ok.
    + exfalso. unfold findMetricKeyByHash in Hfind. clear -Hin Hkey Hfind.
      induction (metricKeys st) as [|k keys IH]; [by apply elem_of_nil in Hin|].
      simpl in Hfind. destruct (Z.eqb_spec (keccak256 k) keyHash) as [|Hne]; [discriminate|].
      apply elem_of_cons in Hin as [->|Hin]; [contradiction | by apply IH].
  - intros r. unfold decryptAggregate, checkSignatures, decode_uint32, findMetricKeyByHash.
    unbind. fold keyHash.
    destruct (FHE_checkSignatures _ _ _ _) eqn:Hsig; [|intros [= <-]; by left].
    destruct (findMetricKeyByHash_from (metricKeys st) keyHash) as [key|r'] eqn:Hfind.
    + destruct (abi_decode_uint32 _) eqn:Hval; [discriminate|].
      intros [= <-]. right; right. done.
    + intros [= <-]. right; left.
      assert (Hnone : Forall (fun k => keccak256 k <> keyHash) (metricKeys st)).
      { clear -Hfind. induction (metricKeys st) as [|k keys IH]; [constructor|].
        simpl in Hfind. destruct (Z.eqb_spec (keccak256 k) keyHash); [discriminate|].
        constructor; [done | by apply IH]. }
      split; [|done].
      by rewrite (findMetricKeyByHash_from_absent _ _ Hnone) in Hfind; injection Hfind as <-.
Qed.

End Outcomes.

(** * The further properties at work *)

Lemma parseUint32_reads_decimal_085 : parseUint32 "085%" = Ok 85.
Proof.
  apply (parseUint32_reads_decimal [0; 8; 5] "%").
  - repeat constructor; unfold is_digit; lia.
  - vm_compute. intros [Hle _]. apply Hle. reflexivity.
  - vm_compute. discriminate.
Defined.

Lemma parseUint32_overflow_panics_2_32 :
  parseUint32 "4294967296 ppm" = Revert (Panic ARITHMETIC_OVERFLOW).
Proof.
  apply (parseUint32_overflow_panics [4; 2; 9; 4; 9; 6; 7; 2; 9; 6] " ppm").
  - repeat constructor; unfold is_digit; lia.
  - vm_compute. intros [Hle _]. apply Hle. reflexivity.
  - vm_compute. reflexivity.
Defined.

Lemma parseUint32_characterised_12a7 :
  exists ds rest,
    "12a7" = digit_string ds +:+ rest /\
    Forall is_digit ds /\
    stops rest /\
    parseUint32 "12a7" =
      (if digits_value ds <=? MAX_UINT32 then Ok (digits_value ds)
       else Revert (Panic ARITHMETIC_OVERFLOW)) /\
    0 <= 12 <= MAX_UINT32.
Proof.
  destruct (parseUint32_characterised "12a7")
    as (ds & rest & Hsplit & Hds & Hstop & Hparse & Hrange & _).
  exists ds, rest. do 4 (split; [assumption|]).
  apply Hrange. reflexivity.
Defined.

Lemma findMetricKeyByHash_first_match_farm :
  findMetricKeyByHash TestDouble.farm (TestDouble.hash "total_water") = Ok "total_water" /\
  findMetricKeyByHash TestDouble.farm (TestDouble.hash "avg_light")
    = Revert (Error "Metric key not found").
Proof.
  destruct (findMetricKeyByHash_first_match (E := TestDouble.external) TestDouble.farm
              (TestDouble.hash "total_water")) as (Hfirst & _).
  destruct (findMetricKeyByHash_first_match (E := TestDouble.external) TestDouble.farm
              (TestDouble.hash "avg_light")) as (_ & Hnone & _).
  split.
  - apply Hfirst. exists [], []. split; [reflexivity|]. split; [reflexivity | constructor].
  - apply Hnone. repeat constructor. vm_compute. discriminate.
Defined.

Lemma metricKeys_append_only_farm :
  findMetricKeyByHash
    (run TestDouble.farm [call_addEncryptedAggregate "avg_light" (TestDouble.wrap 9);
                          call_addEncryptedAggregate "total_water" (TestDouble.wrap 1)])
    (TestDouble.hash "total_water") = Ok "total_water".
Proof.
  apply (proj2 (metricKeys_append_only (E := TestDouble.external) TestDouble.farm _)).
  reflexivity.
Defined.



Lemma aggregate_reveal_names_its_key_farm :
  exists st',
    requestAggregateDecryption (E := TestDouble.external) TestDouble.farm "total_water"
      = Ok (st', []) /\
    decryptAggregate st' 4 [12] [4; 12] = Ok (st', [PlainAggregateResult "total_water" 12]).
Proof.
  destruct (aggregate_reveal_names_its_key (E := TestDouble.external) eq_refl
              TestDouble_sum_initialized 0 TestDouble.farm_calls "total_water" 4 4)
    as (st' & Hrun & Hreveal).
  - apply list_elem_of_In. vm_compute. tauto.
  - intros k Hin _. apply list_elem_of_In in Hin. vm_compute in Hin.
    destruct Hin as [Heq|[]]. symmetry. exact Heq.
  - reflexivity.
  - exists st'. split; [exact Hrun|].
    apply (Hreveal [12] [4; 12] 12); reflexivity.
Defined.

Lemma twin_record_iff_revealed_farm :
  let st := run TestDouble.deployed
              (TestDouble.farm_calls ++
               [call_decryptTwinUpdate 200 1 TestDouble.twin_payload
                  (1 :: TestDouble.twin_payload)]) in
  (EncryptedTwin.id (encryptedTwins st 7) = 7 /\
   EncryptedTwin.encryptedStateHash (encryptedTwins st 7) = TestDouble.wrap 0 /\
   EncryptedTwin.encryptedHealthScore (encryptedTwins st 7) = TestDouble.wrap 0) /\
  encryptedTwins st 8 = EncryptedTwin.zero /\
  getDecryptedTwin st 8 = ("", 0, false).
Proof.
  intros st.
  destruct (twin_record_iff_revealed (E := TestDouble.external) 0
              (TestDouble.farm_calls ++
               [call_decryptTwinUpdate 200 1 TestDouble.twin_payload
                  (1 :: TestDouble.twin_payload)]) 7) as (_ & Hrevealed).
  destruct (twin_record_iff_revealed (E := TestDouble.external) 0
              (TestDouble.farm_calls ++
               [call_decryptTwinUpdate 200 1 TestDouble.twin_payload
                  (1 :: TestDouble.twin_payload)]) 8) as (Habsent & _).
  split.
  - apply Hrevealed. reflexivity.
  - apply Habsent. reflexivity.
Defined.

Lemma repeated_twin_callback_counts_once_farm :
  exists st2,
    decryptTwinUpdate (E := TestDouble.external) 300 TestDouble.farm_revealed 1
      TestDouble.short_payload (1 :: TestDouble.short_payload)
      = Ok (st2, [TwinDecrypted 7]) /\
    twinCount st2 = twinCount TestDouble.farm_revealed /\
    EncryptedTwin.id (encryptedTwins st2 7)
      = EncryptedTwin.id (encryptedTwins TestDouble.farm_revealed 7) /\
    EncryptedTwin.lastUpdated (encryptedTwins st2 7) = 300 /\
    exists parts score,
      abi_decode_strings (External := TestDouble.external) TestDouble.short_payload
        = Some parts /\
      match parts !! 1%nat with Some s => parseUint32 s | None => Ok 0 end = Ok score /\
      decryptedTwins st2 7 = DecryptedTwin.mk (default "" (parts !! 0%nat)) score true.
Proof.
  destruct (decryptTwinUpdate_ok (E := TestDouble.external) 300 TestDouble.farm_revealed 1
              TestDouble.short_payload (1 :: TestDouble.short_payload) ["Dry"] 0)
    as (st2 & Hsecond & _).
  - vm_compute. discriminate.
  - reflexivity.
  - reflexivity.
  - reflexivity.
  - left. vm_compute. discriminate.
  - exists st2. split; [exact Hsecond|].
    apply (repeated_twin_callback_counts_once (E := TestDouble.external) 200 300
             TestDouble.farm TestDouble.farm_revealed st2 1 1
             TestDouble.twin_payload TestDouble.short_payload
             (1 :: TestDouble.twin_payload) (1 :: TestDouble.short_payload)
             [TwinDecrypted 7] [TwinDecrypted 7]).
    + reflexivity.
    + reflexivity.
    + exact Hsecond.
Defined.

Lemma decryptTwinUpdate_succeeds_iff_farm :
  (exists st',
     decryptTwinUpdate (E := TestDouble.external) 200 TestDouble.farm 1
       TestDouble.twin_payload (1 :: TestDouble.twin_payload)
       = Ok (st', [TwinDecrypted 7])) /\
  forall r,
    decryptTwinUpdate (E := TestDouble.external) 200 TestDouble.farm 1
      (TestDouble.encode_strings ["wet"; "4294967296"])
      (1 :: TestDouble.encode_strings ["wet"; "4294967296"]) = Revert r ->
    r = Error "Invalid request id" \/ r = InvalidSignatures \/
    r = AbiDecodeFailed \/ r = Panic ARITHMETIC_OVERFLOW.
Proof.
  split.
  - apply (proj1 (decryptTwinUpdate_succeeds_iff (E := TestDouble.external) 200
                    TestDouble.farm 1 TestDouble.twin_payload
                    (1 :: TestDouble.twin_payload))).
    split; [vm_compute; discriminate|]. split; [reflexivity|].
    split; [exists ["Healthy,85% moisture"; "85"], 85; split; reflexivity|].
    right. vm_compute. split; discriminate.
  - apply (proj2 (decryptTwinUpdate_succeeds_iff (E := TestDouble.external) 200
                    TestDouble.farm 1 _ _)).
Defined.

Lemma stored_readings_never_change_farm :
  readings
    (run TestDouble.farm
       [call_submitEncryptedReading 130 (TestDouble.wrap 1) (TestDouble.wrap 2)
          (TestDouble.wrap 3) (TestDouble.wrap 4) (TestDouble.wrap 5) (TestDouble.wrap 6);
        call_requestTwinUpdate 7 [2]]) 2
    = readings TestDouble.farm 2.
Proof.
  apply (stored_readings_never_change (E := TestDouble.external) TestDouble.farm).
  vm_compute. discriminate.
Defined.

Lemma readings_numbered_in_order_farm :
  readingCount TestDouble.farm = 3 /\
  readings TestDouble.farm 2
    = EncryptedReading.mk 2 (TestDouble.wrap 110) (TestDouble.wrap 22) (TestDouble.wrap 61)
        (TestDouble.wrap 410) (TestDouble.wrap 810) (TestDouble.wrap 84).
Proof.
  destruct (readings_numbered_in_order (E := TestDouble.external) 0 TestDouble.farm_calls)
    as [Hcount Hread].
  - vm_compute. discriminate.
  - split; [exact Hcount|].
    apply (Hread 1%nat
             (fun rid => EncryptedReading.mk rid (TestDouble.wrap 110) (TestDouble.wrap 22)
                           (TestDouble.wrap 61) (TestDouble.wrap 410) (TestDouble.wrap 810)
                           (TestDouble.wrap 84))).
    reflexivity.
Defined.

Lemma requestTwinUpdate_ciphertext_layout_farm :
  exists ciphertexts,
    requestTwinUpdate_ciphertexts (E := TestDouble.external) TestDouble.farm [3; 1]
      = Ok ciphertexts /\
    length ciphertexts = 12%nat /\
    ciphertexts !! 7%nat = Some (TestDouble.wrap 21).
Proof.
  destruct (requestTwinUpdate_ciphertext_layout (E := TestDouble.external) TestDouble.farm
              [3; 1]) as (ciphertexts & Hrun & Hlen & Hat).
  - discriminate.
  - vm_compute. discriminate.
  - exists ciphertexts. split; [exact Hrun|]. split; [exact Hlen|].
    apply (Hat 1%nat 1%nat 1); [reflexivity | lia].
Defined.

Lemma twin_request_answers_as_recommendation_farm :
  exists st' st'',
    requestTwinUpdate (E := TestDouble.external) TestDouble.farm 7 [1; 2; 3]
      = Ok (st', [TwinUpdateRequested 7 4]) /\
    requestToTag st' 4 = TestDouble.hash "twin_update" /\
    decryptRecommendation st' 4 TestDouble.advice_payload
      (4 :: TestDouble.advice_payload) = Ok (st'', [RecommendationDecrypted 7]) /\
    decryptedRecommendations st'' 7 = DecryptedRecommendation.mk "daily" "low N" "+10%" true.
Proof.
  destruct (twin_request_answers_as_recommendation (E := TestDouble.external)
              TestDouble.farm 7 [1; 2; 3] 4 4) as (st' & Hrun & Htag & Hanswer).
  - discriminate.
  - vm_compute. discriminate.
  - discriminate.
  - reflexivity.
  - destruct (Hanswer TestDouble.advice_payload (4 :: TestDouble.advice_payload)
                ["daily"; "low N"; "+10%"]) as (st'' & Hcb & Hview).
    + reflexivity.
    + reflexivity.
    + exists st', st''. split; [exact Hrun|]. split; [exact Htag|].
      split; [exact Hcb | exact Hview].
Defined.

Lemma recommendations_numbered_farm :
  EncryptedRecommendation.id (encryptedRecommendations TestDouble.farm 1) = 1 /\
  encryptedRecommendations TestDouble.farm 2 = EncryptedRecommendation.zero.
Proof.
  destruct (recommendations_numbered (E := TestDouble.external) 0 TestDouble.farm_calls)
    as [[_ Hwf] _].
  split.
  - apply (Hwf 1). vm_compute. split; discriminate.
  - apply (Hwf 2). right. vm_compute. reflexivity.
Defined.

Lemma decryptRecommendation_succeeds_iff_farm :
  (exists st',
     decryptRecommendation (E := TestDouble.external) TestDouble.farm 2
       (TestDouble.encode_strings ["daily"; "low N"; "+10%"; "extra"])
       (2 :: TestDouble.encode_strings ["daily"; "low N"; "+10%"; "extra"])
       = Ok (st', [RecommendationDecrypted 1])) /\
  decryptedRecommendations TestDouble.farm_advised 1
    = DecryptedRecommendation.mk "daily" "low N" "+10%" true.
Proof.
  split.
  - apply (proj1 (decryptRecommendation_succeeds_iff (E := TestDouble.external)
                    TestDouble.farm 2 _ _)).
    split; [vm_compute; discriminate|]. split; [reflexivity|].
    exists ["daily"; "low N"; "+10%"; "extra"]. reflexivity.
  - apply (proj2 (proj2 (decryptRecommendation_succeeds_iff (E := TestDouble.external)
                           TestDouble.farm 2 TestDouble.advice_payload
                           (2 :: TestDouble.advice_payload)))
             TestDouble.farm_advised [RecommendationDecrypted 1] ["daily"; "low N"; "+10%"]);
      reflexivity.
Defined.

Lemma decryptAggregate_succeeds_iff_farm :
  exists key value,
    decryptAggregate (E := TestDouble.external) TestDouble.farm 3 [12] [3; 12]
      = Ok (TestDouble.farm, [PlainAggregateResult key value]).
Proof.
  apply (proj1 (decryptAggregate_succeeds_iff (E := TestDouble.external)
                  TestDouble.farm 3 [12] [3; 12])).
  split; [reflexivity|]. split.
  - exists "total_water". split; [|reflexivity].
    apply list_elem_of_In. vm_compute. tauto.
  - exists 12. reflexivity.
Defined.
